(** * The fine-tuning orchestrator of [train_finetune.py]

    A shallow embedding of the second-stage training script: the startup
    sequence (curriculum thresholds, optimizer overrides, checkpoint
    restore), the per-batch training step with its epoch gates, the
    gradient surgery of the SLM adversarial stage, and the end-of-epoch
    logging and checkpointing.

    Conventions.
    - Python integers are [Z]; the true division in [int(x / 2 - 1)] is
      computed on rationals [Q] and [int] truncates towards zero.
    - Tensor entries and scalar losses are idealised as real numbers [R];
      a tensor is the list of its entries.  Optimizer options, written as
      decimal literals in the script, are rationals.
    - Dictionaries ([model], [optimizer.optimizers], [total_norm], a
      [param_group]) are finite maps keyed by name.
    - Uncaught exceptions end the run: functions that can raise return a
      [Result].
    - File names are joined as [os.path.join] does with the POSIX
      separator.
    - Calls into the neural units, the autograd engine, the optimizers,
      the data loader, the metric writer and the checkpoint store are
      opaque: their results enter as parameters or as fields of the
      per-batch record, and the calls themselves are recorded, in order,
      in the [trace] of the loop state. *)

From Stdlib Require Import Reals Lra Lia ZArith QArith Ascii String.
From stdpp Require Import gmap strings list.

(** ** Python values and exceptions *)

Module Py.

(** The exceptions the script can raise on its own paths. *)
Inductive Exn :=
| ValueError          (* explicit raise, np.random.randint on an empty range *)
| KeyError            (* dict lookup of a missing key *)
| AttributeError      (* Munch attribute lookup of a missing unit *)
| ZeroDivisionError   (* [/] or [%] by zero *)
| UnboundLocalError   (* a local read before any assignment *)
| RuntimeError.       (* torch: min of an empty tensor, stack of unequal shapes *)

Inductive Result (A : Type) : Type :=
| Raise (e : Exn)
| Ok (a : A).
Arguments Raise {A} e.
Arguments Ok {A} a.

#[global] Instance result_ret : MRet Result := fun A a => Ok a.
#[global] Instance result_bind : MBind Result := fun A B f r =>
  match r with Raise e => Raise e | Ok a => f a end.

(** [d[key]] and [munch.key] *)
Definition getitem {A} (d : gmap string A) (key : string) : Result A :=
  match d !! key with Some v => Ok v | None => Raise KeyError end.
Definition getattr {A} (d : gmap string A) (key : string) : Result A :=
  match d !! key with Some v => Ok v | None => Raise AttributeError end.

(** [int(q)] : truncation towards zero. *)
Definition int_trunc (q : Q) : Z := Z.quot (Qnum q) (Zpos (Qden q)).

(** [a % b] on integers: the sign follows the divisor. *)
Definition pymod (a b : Z) : Result Z :=
  if (b =? 0)%Z then Raise ZeroDivisionError else Ok (a mod b)%Z.

(** [t.min().item()] of a one-dimensional integer tensor. *)
Definition tensor_min (t : list Z) : Result Z :=
  match t with
  | [] => Raise RuntimeError
  | x :: xs => Ok (foldl Z.min x xs)
  end.

(** Length of [t[start:stop]] along an axis of [n] entries: negative
    indices count from the end, both ends are clamped to [0, n]. *)
Definition clamp_index (n i : Z) : Z :=
  if (i <? 0)%Z then Z.max 0 (i + n) else Z.min i n.
Definition slice_len (n start stop : Z) : Z :=
  Z.max 0 (clamp_index n stop - clamp_index n start).

(** [torch.stack(ts).size(-1)] : the common last extent; raises on an
    empty list and when the pieces differ. *)
Definition stack_size (widths : list Z) : Result Z :=
  match widths with
  | [] => Raise RuntimeError
  | w :: ws => if forallb (Z.eqb w) ws then Ok w else Raise RuntimeError
  end.

(** [s.endswith("/")] *)
Fixpoint ends_with_sep (s : string) : bool :=
  match s with
  | EmptyString => false
  | String c rest =>
      match rest with
      | EmptyString => Ascii.eqb c "/"
      | String _ _ => ends_with_sep rest
      end
  end.

(** [os.path.join(a, b)] with the POSIX separator: an absolute [b]
    discards [a]; otherwise [b] is appended, after a separator unless [a]
    is empty or already ends with one. *)
Definition path_join (a b : string) : string :=
  if String.prefix "/" b then b
  else if String.eqb a "" || ends_with_sep a then (a ++ b)%string
  else (a ++ "/" ++ b)%string.

(** The state of numpy's global generator: the stream of raw draws still
    to come. *)
Definition Rng := nat → Z.

(** [np.random.randint(low, high)] : a value of [[low, high)]; raises
    [ValueError] when the range is empty. *)
Definition randint (low high : Z) (g : Rng) : Result (Z * Rng) :=
  if (low <? high)%Z
  then Ok ((low + g 0%nat mod (high - low))%Z, fun n => g (S n))
  else Raise ValueError.

End Py.

(** ** Gradients of the registered units *)

Module Grad.
Import Py.
Local Open Scope R_scope.

(** A tensor, flattened. *)
Abbreviation Tensor := (list R).

(** One [torch.nn.Parameter]: its name inside the unit (as in
    [named_parameters()], e.g. ["duration_proj.linear_layer.weight"]), its
    [requires_grad] flag and its [.grad], [None] when no gradient was
    accumulated. *)
Record Param := mkParam {
  pname : string;
  requires_grad : bool;
  grad : option Tensor
}.

(** [model[key].parameters()] *)
Abbreviation Unit := (list Param).

(** [t.norm(2)] : square root of the sum of the squared entries. *)
Definition sum_sq (t : Tensor) : R := foldr (fun x acc => x * x + acc) 0 t.
Definition norm2 (t : Tensor) : R := sqrt (sum_sq t).

(** [t *= c] *)
Definition tscale (c : R) (t : Tensor) : Tensor := map (Rmult c) t.

(** [if p.grad is not None: p.grad *= c] *)
Definition pscale (c : R) (p : Param) : Param :=
  match grad p with
  | Some g => mkParam (pname p) (requires_grad p) (Some (tscale c g))
  | None => p
  end.

(** Lines 499-510: the per-unit gradient norm.
<<
    total_norm[key] = 0
    parameters = [p for p in model[key].parameters()
                  if p.grad is not None and p.requires_grad]
    for p in parameters:
        param_norm = p.grad.detach().data.norm(2)
        total_norm[key] += param_norm.item() ** 2
    total_norm[key] = total_norm[key] ** 0.5
>> *)
Definition counted (p : Param) : bool :=
  match grad p with Some _ => requires_grad p | None => false end.

Definition param_norm (p : Param) : R :=
  match grad p with Some g => norm2 g | None => 0 end.

(** [total_norm[key]] when the inner loop ends, and after [** 0.5]. *)
Definition unit_sq (u : Unit) : R :=
  foldl (fun acc p => acc + param_norm p * param_norm p) 0
        (filter (fun p => counted p = true) u).

Definition unit_norm (u : Unit) : R := sqrt (unit_sq u).

Definition total_norm (model : gmap string Unit) : gmap string R :=
  unit_norm <$> model.

(** Lines 512-517: the global rescale.  [total_norm["predictor"]] raises
    [KeyError] when the registry has no such unit.
<<
    if total_norm["predictor"] > slmadv_params.thresh:
        for key in model.keys():
            for p in model[key].parameters():
                if p.grad is not None:
                    p.grad *= 1 / total_norm["predictor"]
>> *)
Definition rescale_all (c : R) (model : gmap string Unit) : gmap string Unit :=
  map (pscale c) <$> model.

(** Whether the inner statement is reached at all: some parameter of some
    unit carries a gradient. *)
Definition some_grad (model : gmap string Unit) : Prop :=
  map_Exists (fun _ u => Exists (fun p => is_Some (grad p)) u) model.

Definition gradient_scaling (thresh : R) (model : gmap string Unit)
  : Result (gmap string Unit) :=
  tn ← getitem (total_norm model) "predictor";
  if Rgt_dec tn thresh then
    if Req_dec_T tn 0 then
      (* [1 / 0.0] where the statement is reached *)
      if decide (some_grad model) then Raise ZeroDivisionError else Ok model
    else Ok (rescale_all (1 / tn) model)
  else Ok model.

(** [model.predictor.<sub>.parameters()] : the parameters of the unit
    whose name lies below the child module [sub]. *)
Definition in_submodule (sub : string) (p : Param) : bool :=
  String.prefix (sub ++ ".") (pname p).

Definition amplify_sub (sub : string) (scale : R) (u : Unit) : Unit :=
  map (fun p => if in_submodule sub p then pscale scale p else p) u.

(** Lines 519-529: the targeted amplification.  Attribute access on a
    missing unit raises [AttributeError].
<<
    for p in model.predictor.duration_proj.parameters():
        if p.grad is not None: p.grad *= slmadv_params.scale
    for p in model.predictor.lstm.parameters():
        if p.grad is not None: p.grad *= slmadv_params.scale
    for p in model.diffusion.parameters():
        if p.grad is not None: p.grad *= slmadv_params.scale
>> *)
Definition targeted_amplification (scale : R) (model : gmap string Unit)
  : Result (gmap string Unit) :=
  _ ← getattr model "predictor";
  let m1 := alter (amplify_sub "duration_proj" scale) "predictor"%string model in
  let m2 := alter (amplify_sub "lstm" scale) "predictor"%string m1 in
  _ ← getattr m2 "diffusion";
  Ok (alter (map (pscale scale)) "diffusion"%string m2).

(** Lines 498-529 in sequence. *)
Definition gradient_surgery (thresh scale : R) (model : gmap string Unit)
  : Result (gmap string Unit) :=
  m1 ← gradient_scaling thresh model;
  targeted_amplification scale m1.

(** Which parameters the amplification touches. *)
Definition amplified (key : string) (p : Param) : bool :=
  if decide (key = "predictor"%string)
  then in_submodule "duration_proj" p || in_submodule "lstm" p
  else bool_decide (key = "diffusion"%string).

End Grad.

(** ** Optimizer hyperparameters *)

Module Optim.
Import Py.

(** A value of a [param_group] dictionary: a number, or a pair such as
    [betas]. *)
Inductive Hyper :=
| HNum (q : Q)
| HPair (a b : Q).

(** One [param_group] of a unit's optimizer: a dictionary from option
    names (["lr"], ["betas"], ["eps"], ...) to their values. *)
Abbreviation ParamGroup := (gmap string Hyper).

(** [optimizer.optimizers[key].param_groups] for every unit. *)
Abbreviation Optimizers := (gmap string (list ParamGroup)).

(** Lines 154-159, the body of the loop over the groups of ["bert"]. *)
Definition adjust_bert (bert_lr : Q) (g : ParamGroup) : ParamGroup :=
  let g := <["betas" := HPair 0.9 0.99]> g in
  let g := <["lr" := HNum bert_lr]> g in
  let g := <["initial_lr" := HNum bert_lr]> g in
  let g := <["min_lr" := HNum 0]> g in
  <["weight_decay" := HNum 0.01]> g.

(** Lines 163-168, the body of the loop over the groups of an acoustic
    module. *)
Definition adjust_acoustic (ft_lr : Q) (g : ParamGroup) : ParamGroup :=
  let g := <["betas" := HPair 0.0 0.99]> g in
  let g := <["lr" := HNum ft_lr]> g in
  let g := <["initial_lr" := HNum ft_lr]> g in
  let g := <["min_lr" := HNum 0]> g in
  <["weight_decay" := HNum 1e-4]> g.

(** [for g in optimizer.optimizers[key].param_groups: ...] ; the groups
    are updated in place; a missing unit raises [KeyError]. *)
Definition adjust_unit (f : ParamGroup → ParamGroup) (key : string)
  (opt : Optimizers) : Result Optimizers :=
  gs ← getitem opt key;
  Ok (<[key := map f gs]> opt).

(** Lines 153-168. *)
Definition adjust_learning_rates (bert_lr ft_lr : Q) (opt : Optimizers)
  : Result Optimizers :=
  o1 ← adjust_unit (adjust_bert bert_lr) "bert" opt;
  o2 ← adjust_unit (adjust_acoustic ft_lr) "decoder" o1;
  adjust_unit (adjust_acoustic ft_lr) "style_encoder" o2.

(** The five options the two override blocks write. *)
Definition overridden_options : list string :=
  ["betas"; "lr"; "initial_lr"; "min_lr"; "weight_decay"]%string.

(** The options of a group of ["bert"], and of a group of an acoustic
    module, once overridden. *)
Definition bert_options (bert_lr : Q) (g : ParamGroup) : Prop :=
  g !! "betas"%string = Some (HPair 0.9 0.99)
  ∧ g !! "lr"%string = Some (HNum bert_lr)
  ∧ g !! "initial_lr"%string = Some (HNum bert_lr)
  ∧ g !! "min_lr"%string = Some (HNum 0)
  ∧ g !! "weight_decay"%string = Some (HNum 0.01).

Definition acoustic_options (ft_lr : Q) (g : ParamGroup) : Prop :=
  g !! "betas"%string = Some (HPair 0.0 0.99)
  ∧ g !! "lr"%string = Some (HNum ft_lr)
  ∧ g !! "initial_lr"%string = Some (HNum ft_lr)
  ∧ g !! "min_lr"%string = Some (HNum 0)
  ∧ g !! "weight_decay"%string = Some (HNum 1e-4).

(** [after] carries the overrides on the three units and agrees with
    [before] on every other unit. *)
Definition overrides_hold (bert_lr ft_lr : Q) (before after : Optimizers) : Prop :=
  (∃ gs, after !! "bert"%string = Some gs ∧ Forall (bert_options bert_lr) gs)
  ∧ (∃ gs, after !! "decoder"%string = Some gs
           ∧ Forall (acoustic_options ft_lr) gs)
  ∧ (∃ gs, after !! "style_encoder"%string = Some gs
           ∧ Forall (acoustic_options ft_lr) gs)
  ∧ (∀ key, key ≠ "bert"%string → key ≠ "decoder"%string →
            key ≠ "style_encoder"%string → after !! key = before !! key).

(** The per-unit schedule parameters handed to [build_optimizer]. *)
Record SchedulerParams := mkSched {
  max_lr : Q;
  pct_start : Q;
  sched_epochs : Z;
  steps_per_epoch : Z
}.

Definition set_max_lr (v : Q) (p : SchedulerParams) : SchedulerParams :=
  mkSched v (pct_start p) (sched_epochs p) (steps_per_epoch p).

(** [d[key]["max_lr"] = v] *)
Definition set_unit_max_lr (key : string) (v : Q)
  (d : gmap string SchedulerParams) : Result (gmap string SchedulerParams) :=
  p ← getitem d key;
  Ok (<[key := set_max_lr v p]> d).

End Optim.

(** ** The training script *)

Module Train.
Import Py Grad Optim.

(** [loss_params]: the weights of the aggregated generator loss. *)
Record LossParams := mkLossParams {
  lambda_mel : R;
  lambda_F0 : R;
  lambda_ce : R;
  lambda_norm : R;
  lambda_dur : R;
  lambda_gen : R;
  lambda_slm : R;
  lambda_sty : R;
  lambda_diff : R;
  lambda_mono : R;
  lambda_s2s : R
}.

(** The resolved configuration, as far as [main] reads it. *)
Record Config := mkConfig {
  cfg_epochs : Z;                        (* config["epochs"] *)
  save_freq : Z;
  log_interval : Z;
  max_len : Z;
  loss_params : LossParams;
  cfg_diff_epoch : Z;                    (* loss_params.diff_epoch *)
  cfg_joint_epoch : Z;                   (* loss_params.joint_epoch *)
  opt_lr : Q;                            (* optimizer_params.lr *)
  bert_lr : Q;
  ft_lr : Q;
  log_dir : string;
  pretrained_model : string;
  second_stage_load_pretrained : bool;
  first_stage_path : string;
  load_only_params : bool;
  multispeaker : bool;
  estimate_sigma_data : bool;
  thresh : R;                            (* slmadv_params.thresh *)
  scale : R;                             (* slmadv_params.scale *)
  train_loader_len : Z                   (* len(train_dataloader) *)
}.

(** The three local variables line 110-113 adjust. *)
Record Thresholds := mkThresholds {
  diff_epoch : Z;
  joint_epoch : Z;
  epochs : Z
}.

(** The scalars [backward()] is called on. *)
Inductive Loss := DLoss | GLoss | LossGenLm | DLossSlm.

(** What [torch.save] receives at line 738-746. *)
Record Checkpoint := mkCheckpoint {
  ck_net : gmap string Unit;
  ck_optimizer : Optimizers;
  ck_iters : Z;
  ck_val_loss : R;
  ck_epoch : Z
}.

(** The calls on the collaborators, in program order. *)
Inductive Event :=
| ZeroGrad                                    (* optimizer.zero_grad() *)
| Backward (l : Loss) (value : R)             (* <loss>.backward() *)
| OptStep (key : string)                      (* optimizer.step(key) *)
| SlmAdv (i : Z) (use_ind : bool)             (* slmadv(i, ..., use_ind, ...) *)
| AddScalar (tag : string) (value : R) (step : Z)   (* writer.add_scalar *)
| TorchSave (path_epoch : Z) (state : Checkpoint)   (* torch.save(state, save_path) *)
| DumpConfig (sigma_data : option R).         (* yaml.dump(config, outfile) *)

(** What the collaborators return while one training batch is processed. *)
Record Batch := mkBatch {
  mel_input_length : list Z;
  mels_frames : Z;                  (* mels.size(-1) *)
  aligner_raises : bool;            (* model.text_aligner(...) raised *)
  np_random : Rng;                  (* numpy's generator when the step starts *)
  sigma_estimate : R;               (* s_trg.std(axis=-1).mean().item() *)
  (* (loss_diff, loss_sty) of the sampler and the diffusion unit, for the
     multispeaker flag and the drawn [num_steps] *)
  diffusion_losses : bool → Z → R * R;
  d_loss : R;
  loss_mel : R;
  loss_F0_rec : R;
  loss_ce : R;
  loss_norm_rec : R;
  loss_dur : R;
  loss_gen_all : R;
  loss_lm : R;
  loss_mono : R;
  loss_s2s : R;
  np_rand : R;                      (* np.random.rand() *)
  (* slmadv(i, ..., use_ind, ...) : None, or (d_loss_slm, loss_gen_lm) *)
  slmadv : Z → bool → option (R * R);
  (* the effect of <loss>.backward() on the .grad fields of the registry *)
  autograd : Loss → gmap string Unit → gmap string Unit
}.

(** The mutable state of the loop. *)
Record TrainState := mkState {
  model : gmap string Unit;
  optimizers : Optimizers;
  iters : Z;
  running_loss : R;
  running_std : list R;
  best_loss : option R;             (* None is float("inf") *)
  trace : list Event
}.

Definition set_model (g : gmap string Unit) (s : TrainState) : TrainState :=
  mkState g (optimizers s) (iters s) (running_loss s) (running_std s)
          (best_loss s) (trace s).
Definition set_optimizers (o : Optimizers) (s : TrainState) : TrainState :=
  mkState (model s) o (iters s) (running_loss s) (running_std s)
          (best_loss s) (trace s).
Definition set_iters (n : Z) (s : TrainState) : TrainState :=
  mkState (model s) (optimizers s) n (running_loss s) (running_std s)
          (best_loss s) (trace s).
Definition set_running_loss (x : R) (s : TrainState) : TrainState :=
  mkState (model s) (optimizers s) (iters s) x (running_std s)
          (best_loss s) (trace s).
Definition set_running_std (l : list R) (s : TrainState) : TrainState :=
  mkState (model s) (optimizers s) (iters s) (running_loss s) l
          (best_loss s) (trace s).
Definition set_best_loss (x : option R) (s : TrainState) : TrainState :=
  mkState (model s) (optimizers s) (iters s) (running_loss s) (running_std s)
          x (trace s).
Definition emit (evs : list Event) (s : TrainState) : TrainState :=
  mkState (model s) (optimizers s) (iters s) (running_loss s) (running_std s)
          (best_loss s) (trace s ++ evs).

(** Lines 332-333. *)
Definition mel_len_st_of (mn : Z) : Z := int_trunc (inject_Z mn / 2 - 1).
Definition mel_len_of (max_len mn : Z) : Z :=
  Z.min (int_trunc (inject_Z mn / 2 - 1)) (max_len `div` 2).

(** Lines 340-359: the two offsets drawn for every utterance. *)
Fixpoint sample_segments (mel_len mel_len_st : Z) (lens : list Z) (g : Rng)
  : Result (list (Z * Z) * Rng) :=
  match lens with
  | [] => Ok ([], g)
  | len :: rest =>
      let mel_length := int_trunc (inject_Z len / 2) in
      '(random_start, g) ← randint 0 (mel_length - mel_len) g;
      '(random_start_st, g) ← randint 0 (mel_length - mel_len_st) g;
      '(tl, g) ← sample_segments mel_len mel_len_st rest g;
      Ok ((random_start, random_start_st) :: tl, g)
  end.

(** Both offsets of an utterance of [len] frames lie inside the range
    their draw was given. *)
Definition offsets_in_range (mel_len mel_len_st : Z) (len : Z) (o : Z * Z) : Prop :=
  (0 <= o.1 < int_trunc (inject_Z len / 2) - mel_len)%Z ∧
  (0 <= o.2 < int_trunc (inject_Z len / 2) - mel_len_st)%Z.

(** [gt.size(-1)] : [gt] stacks, per utterance,
    [mels[bib, :, random_start * 2 : (random_start + mel_len) * 2]]. *)
Definition gt_size (frames mel_len : Z) (offsets : list (Z * Z)) : Result Z :=
  stack_size (map (fun o => slice_len frames (o.1 * 2) ((o.1 + mel_len) * 2))
                  offsets).

(** [st.size(-1)] : the same for the style references, cut at the second
    offset with [mel_len_st]. *)
Definition st_size (frames mel_len_st : Z) (offsets : list (Z * Z)) : Result Z :=
  stack_size (map (fun o => slice_len frames (o.2 * 2) ((o.2 + mel_len_st) * 2))
                  offsets).

(** Lines 332-368: [(mel_len, offsets, gt.size(-1))]. *)
Definition crop_segments (cfg : Config) (b : Batch) (g : Rng)
  : Result (Z * list (Z * Z) * Z) :=
  mn ← tensor_min (mel_input_length b);
  let mel_len_st := mel_len_st_of mn in
  let mel_len := mel_len_of (max_len cfg) mn in
  '(offsets, _) ← sample_segments mel_len mel_len_st (mel_input_length b) g;
  width ← gt_size (mels_frames b) mel_len offsets;
  _ ← st_size (mels_frames b) mel_len_st offsets;
  Ok (mel_len, offsets, width).

(** The events of the adversarial stage. *)
Definition is_slm_event (e : Event) : bool :=
  match e with
  | SlmAdv _ _ | Backward LossGenLm _ | Backward DLossSlm _ => true
  | _ => false
  end.

Definition is_opt_step (e : Event) : bool :=
  match e with OptStep _ => true | _ => false end.

(** Lines 436-448. *)
Definition g_loss_of (w : LossParams) (b : Batch) (loss_sty loss_diff : R) : R :=
  (lambda_mel w * loss_mel b
   + lambda_F0 w * loss_F0_rec b
   + lambda_ce w * loss_ce b
   + lambda_norm w * loss_norm_rec b
   + lambda_dur w * loss_dur b
   + lambda_gen w * loss_gen_all b
   + lambda_slm w * loss_lm b
   + lambda_sty w * loss_sty
   + lambda_diff w * loss_diff
   + lambda_mono w * loss_mono b
   + lambda_s2s w * loss_s2s b)%R.

Definition is_add_scalar (e : Event) : bool :=
  match e with AddScalar _ _ _ => true | _ => false end.

(** The collaborator calls of lines 392-464, in order. *)
Definition main_events (cfg : Config) (th : Thresholds) (epoch : Z)
  (b : Batch) (loss_sty loss_diff : R) : list Event :=
  [ ZeroGrad; Backward DLoss (d_loss b); OptStep "msd"; OptStep "mpd";
    ZeroGrad;
    Backward GLoss (g_loss_of (loss_params cfg) b loss_sty loss_diff);
    OptStep "bert_encoder"; OptStep "bert"; OptStep "predictor";
    OptStep "predictor_encoder"; OptStep "style_encoder"; OptStep "decoder";
    OptStep "text_encoder"; OptStep "text_aligner" ]
  ++ (if (epoch >=? diff_epoch th)%Z then [OptStep "diffusion"] else []).

(** The collaborator calls of lines 466-540, in order. *)
Definition slm_events (cfg : Config) (th : Thresholds) (epoch i : Z)
  (b : Batch) : list Event :=
  if (epoch >=? joint_epoch th)%Z then
    let use_ind := if Rlt_dec (np_rand b) 0.5 then true else false in
    SlmAdv i use_ind ::
    match slmadv b i use_ind with
    | None => []
    | Some (d_loss_slm, loss_gen_lm) =>
        [ ZeroGrad; Backward LossGenLm loss_gen_lm;
          OptStep "bert_encoder"; OptStep "bert"; OptStep "predictor";
          OptStep "diffusion" ]
        ++ (if Req_dec_T d_loss_slm 0 then []
            else [ZeroGrad; Backward DLossSlm d_loss_slm; OptStep "wd"])
    end
  else [].

Section Collaborators.

(** [optimizer.zero_grad()] : its effect on the [.grad] fields. *)
Variable zero_grad : gmap string Unit → gmap string Unit.

(** [optimizer.step(key)] of [optimizers.py] : its effect on the state of
    the optimizers (the options of the parameter groups, which a tick of
    the unit's scheduler may rewrite). *)
Variable optimizer_step : string → Optimizers → Optimizers.

(** [load_checkpoint(model, optimizer, path, load_only_params,
    ignore_modules)] of [models.py], returning
    [(model, optimizer, epoch, iters)]. *)
Variable load_checkpoint :
  gmap string Unit → option Optimizers → string → bool → list string →
  gmap string Unit * option Optimizers * Z * Z.

(** [build_optimizer(parameters, scheduler_params_dict, lr)] of
    [optimizers.py]. *)
Variable build_optimizer :
  gmap string Unit → gmap string SchedulerParams → Q → Optimizers.

(** The three calls the loop makes on the optimizer and the autograd
    engine: each is recorded, [zero_grad] and [backward] act on the
    gradients of the registry, [step] on the state of the optimizers. *)
Definition opt_zero_grad (s : TrainState) : TrainState :=
  emit [ZeroGrad] (set_model (zero_grad (model s)) s).
Definition backward (b : Batch) (l : Loss) (v : R) (s : TrainState) : TrainState :=
  emit [Backward l v] (set_model (autograd b l (model s)) s).
Definition opt_step (key : string) (s : TrainState) : TrainState :=
  emit [OptStep key] (set_optimizers (optimizer_step key (optimizers s)) s).

(** Lines 285-326: [(loss_sty, loss_diff)], the generator state and the
    loop state after the denoiser block. *)
Definition denoiser_training (cfg : Config) (th : Thresholds) (epoch : Z)
  (b : Batch) (g : Rng) (s : TrainState) : Result (R * R * Rng * TrainState) :=
  if (epoch >=? diff_epoch th)%Z then
    '(num_steps, g) ← randint 3 5 g;
    let s := if estimate_sigma_data cfg
             then set_running_std (running_std s ++ [sigma_estimate b]) s
             else s in
    let '(loss_diff, loss_sty) := diffusion_losses b (multispeaker cfg) num_steps in
    Ok (loss_sty, loss_diff, g, s)
  else Ok (0%R, 0%R, g, s).

(** Lines 466-540: the SLM adversarial stage; returns
    [(d_loss_slm, loss_gen_lm)] with the state. *)
Definition slm_stage (cfg : Config) (th : Thresholds) (epoch i : Z)
  (b : Batch) (s : TrainState) : Result (R * R * TrainState) :=
  if (epoch >=? joint_epoch th)%Z then
    let use_ind := if Rlt_dec (np_rand b) 0.5 then true else false in
    (* [ref if multispeaker else None] : [ref] is only ever assigned at
       line 240, in an epoch from [diff_epoch] on *)
    if multispeaker cfg && negb (epoch >=? diff_epoch th)%Z
    then Raise UnboundLocalError else
    let s := emit [SlmAdv i use_ind] s in
    match slmadv b i use_ind with
    | None => Ok (0%R, 0%R, s)
    | Some (d_loss_slm, loss_gen_lm) =>
        let s := opt_zero_grad s in
        let s := backward b LossGenLm loss_gen_lm s in
        g ← gradient_surgery (thresh cfg) (scale cfg) (model s);
        let s := set_model g s in
        let s := opt_step "bert_encoder" s in
        let s := opt_step "bert" s in
        let s := opt_step "predictor" s in
        let s := opt_step "diffusion" s in
        let s := if Req_dec_T d_loss_slm 0 then s
                 else opt_step "wd" (backward b DLossSlm d_loss_slm (opt_zero_grad s)) in
        Ok (d_loss_slm, loss_gen_lm, s)
    end
  else Ok (0%R, 0%R, s).

(** Lines 544-585: the periodic metrics record. *)
Definition log_step (cfg : Config) (i : Z) (b : Batch)
  (loss_sty loss_diff d_loss_slm loss_gen_lm : R) (s : TrainState)
  : Result TrainState :=
  r ← pymod (i + 1) (log_interval cfg);
  if (r =? 0)%Z then
    let it := iters s in
    let s := emit
      [ AddScalar "train/mel_loss" (running_loss s / IZR (log_interval cfg)) it;
        AddScalar "train/gen_loss" (loss_gen_all b) it;
        AddScalar "train/d_loss" (d_loss b) it;
        AddScalar "train/ce_loss" (loss_ce b) it;
        AddScalar "train/dur_loss" (loss_dur b) it;
        AddScalar "train/slm_loss" (loss_lm b) it;
        AddScalar "train/norm_loss" (loss_norm_rec b) it;
        AddScalar "train/F0_loss" (loss_F0_rec b) it;
        AddScalar "train/sty_loss" loss_sty it;
        AddScalar "train/diff_loss" loss_diff it;
        AddScalar "train/d_loss_slm" d_loss_slm it;
        AddScalar "train/gen_loss_slm" loss_gen_lm it ] s in
    Ok (set_running_loss 0 s)
  else Ok s.

(** Lines 392-464: discriminator step and generator step. *)
Definition main_updates (cfg : Config) (th : Thresholds) (epoch : Z)
  (b : Batch) (loss_sty loss_diff : R) (s : TrainState) : TrainState :=
  let s := opt_zero_grad s in
  let s := backward b DLoss (d_loss b) s in
  let s := opt_step "msd" s in
  let s := opt_step "mpd" s in
  let s := opt_zero_grad s in
  let s := set_running_loss (running_loss s + loss_mel b) s in
  let s := backward b GLoss (g_loss_of (loss_params cfg) b loss_sty loss_diff) s in
  let s := opt_step "bert_encoder" s in
  let s := opt_step "bert" s in
  let s := opt_step "predictor" s in
  let s := opt_step "predictor_encoder" s in
  let s := opt_step "style_encoder" s in
  let s := opt_step "decoder" s in
  let s := opt_step "text_encoder" s in
  let s := opt_step "text_aligner" s in
  if (epoch >=? diff_epoch th)%Z then opt_step "diffusion" s else s.

(** Lines 328-585: the step once the denoiser block has produced
    [loss_sty] and [loss_diff]; [continue] returns the state reached so
    far. *)
Definition finish_step (cfg : Config) (th : Thresholds) (epoch i : Z)
  (b : Batch) (loss_sty loss_diff : R) (g : Rng) (s : TrainState)
  : Result TrainState :=
  '(_, _, width) ← crop_segments cfg b g;
  if (width <? 80)%Z then Ok s else
  let s := main_updates cfg th epoch b loss_sty loss_diff s in
  '(d_loss_slm, loss_gen_lm, s) ← slm_stage cfg th epoch i b s;
  let s := set_iters (iters s + 1) s in
  log_step cfg i b loss_sty loss_diff d_loss_slm loss_gen_lm s.

(** Lines 220-585: the body of the loop over the training batches. *)
Definition train_step (cfg : Config) (th : Thresholds) (epoch i : Z)
  (b : Batch) (s : TrainState) : Result TrainState :=
  if aligner_raises b then Ok s else
  '(loss_sty, loss_diff, g, s) ← denoiser_training cfg th epoch b (np_random b) s;
  finish_step cfg th epoch i b loss_sty loss_diff g s.

(** [for i, batch in enumerate(train_dataloader)] *)
Fixpoint train_batches (cfg : Config) (th : Thresholds) (epoch i : Z)
  (bs : list Batch) (s : TrainState) : Result TrainState :=
  match bs with
  | [] => Ok s
  | b :: bs =>
      s ← train_step cfg th epoch i b s;
      train_batches cfg th epoch (i + 1) bs s
  end.

(** What one validation batch contributes; [None] when its forward
    raised inside the [try]. *)
Record ValLosses := mkValLosses {
  val_loss_mel : R;
  val_loss_dur : R;
  val_loss_F0 : R
}.

Record ValAcc := mkValAcc {
  loss_test : R;
  loss_align : R;
  loss_f : R;
  iters_test : Z
}.

(** Lines 594-721. *)
Fixpoint validate (vs : list (option ValLosses)) (acc : ValAcc) (s : TrainState)
  : ValAcc * TrainState :=
  match vs with
  | [] => (acc, s)
  | v :: vs =>
      let s := opt_zero_grad s in
      match v with
      | Some l =>
          validate vs (mkValAcc (loss_test acc + val_loss_mel l)
                                (loss_align acc + val_loss_dur l)
                                (loss_f acc + val_loss_F0 l)
                                (iters_test acc + 1)) s
      | None => validate vs acc s
      end
  end.

(** [a / n] with an integer count [n]. *)
Definition rdiv (a : R) (n : Z) : Result R :=
  if (n =? 0)%Z then Raise ZeroDivisionError else Ok (a / IZR n)%R.

(** [float(np.mean(running_std))] ; [None] is nan, the mean of nothing. *)
Definition np_mean (l : list R) : option R :=
  match l with
  | [] => None
  | _ => Some (foldr Rplus 0%R l / INR (length l))%R
  end.

(** Lines 723-732: the validation metrics. *)
Definition log_validation (epoch : Z) (acc : ValAcc) (s : TrainState)
  : Result TrainState :=
  mel ← rdiv (loss_test acc) (iters_test acc);
  _ ← rdiv (loss_align acc) (iters_test acc);    (* formatted by logger.info *)
  f0 ← rdiv (loss_f acc) (iters_test acc);
  Ok (emit [ AddScalar "eval/mel_loss" mel (epoch + 1);
             AddScalar "eval/dur_loss" mel (epoch + 1);
             AddScalar "eval/F0_loss" f0 (epoch + 1) ] s).

(** Lines 734-757: the periodic checkpoint. *)
Definition save_checkpoint (cfg : Config) (epoch : Z) (acc : ValAcc)
  (s : TrainState) : Result TrainState :=
  r ← pymod (epoch + 1) (save_freq cfg);
  if (r =? 0)%Z then
    val ← rdiv (loss_test acc) (iters_test acc);
    let s := match best_loss s with
             | None => set_best_loss (Some val) s
             | Some best => if Rlt_dec val best then set_best_loss (Some val) s else s
             end in
    let state := mkCheckpoint (model s) (optimizers s) (iters s) val epoch in
    let s := emit [TorchSave epoch state] s in
    Ok (if estimate_sigma_data cfg
        then emit [DumpConfig (np_mean (running_std s))] s
        else s)
  else Ok s.

(** The batches the two data loaders yield in each epoch. *)
Record Data := mkData {
  train_data : Z → list Batch;
  val_data : Z → list (option ValLosses)
}.

(** Lines 206-757: one iteration of the loop over the epochs. *)
Definition run_epoch (cfg : Config) (th : Thresholds) (data : Data)
  (epoch : Z) (s : TrainState) : Result TrainState :=
  let s := set_running_loss 0 s in
  s ← train_batches cfg th epoch 0 (train_data data epoch) s;
  let '(acc, s) := validate (val_data data epoch) (mkValAcc 0 0 0 0) s in
  s ← log_validation epoch acc s;
  save_checkpoint cfg epoch acc s.

(** [for epoch in range(start_epoch, epochs)] *)
Fixpoint run_epochs (cfg : Config) (th : Thresholds) (data : Data)
  (n : nat) (epoch : Z) (s : TrainState) : Result TrainState :=
  match n with
  | O => Ok s
  | S n =>
      s ← run_epoch cfg th data epoch s;
      run_epochs cfg th data n (epoch + 1) s
  end.

Definition training_loop (cfg : Config) (th : Thresholds) (data : Data)
  (start_epoch : Z) (s : TrainState) : Result TrainState :=
  run_epochs cfg th data (Z.to_nat (epochs th - start_epoch)) start_epoch s.

(** The local variables of [main] when the loop over the epochs starts. *)
Record Startup := mkStartup {
  su_model : gmap string Unit;
  su_optimizer : Optimizers;
  start_epoch : Z;
  su_iters : Z;
  su_thresholds : Thresholds
}.

Definition first_stage_ignore_modules : list string :=
  ["bert"; "bert_encoder"; "predictor"; "predictor_encoder";
   "msd"; "mpd"; "wd"; "diffusion"]%string.

(** Lines 83-85. *)
Definition load_pretrained_of (cfg : Config) : bool :=
  negb (String.eqb (pretrained_model cfg) "") && second_stage_load_pretrained cfg.

(** Lines 80-117: [(model, start_epoch, iters, thresholds)] after the
    first-stage branch. *)
Definition load_first_stage (cfg : Config) (model : gmap string Unit)
  : Result (gmap string Unit * Z * Z * Thresholds) :=
  let start_epoch := 0%Z in
  let iters := 0%Z in
  let th := mkThresholds (cfg_diff_epoch cfg) (cfg_joint_epoch cfg) (cfg_epochs cfg) in
  let load_pretrained := load_pretrained_of cfg in
  if negb load_pretrained then
    if negb (String.eqb (first_stage_path cfg) "") then
      let path := path_join (log_dir cfg) (first_stage_path cfg) in
      let '(model, _, start_epoch, iters) :=
        load_checkpoint model None path true first_stage_ignore_modules in
      let th := mkThresholds (diff_epoch th + start_epoch)
                             (joint_epoch th + start_epoch)
                             (epochs th + start_epoch) in
      style ← getattr model "style_encoder";
      Ok (<["predictor_encoder" := style]> model, start_epoch, iters, th)
    else Raise ValueError
  else Ok (model, start_epoch, iters, th).

(** Lines 136-145. *)
Definition scheduler_params_dict_of (cfg : Config) (th : Thresholds)
  (model : gmap string Unit) : Result (gmap string SchedulerParams) :=
  let scheduler_params :=
    mkSched (opt_lr cfg) 0 (epochs th) (train_loader_len cfg) in
  let d := (fun _ => scheduler_params) <$> model in
  d ← set_unit_max_lr "bert" (bert_lr cfg * 2) d;
  d ← set_unit_max_lr "decoder" (ft_lr cfg * 2) d;
  set_unit_max_lr "style_encoder" (ft_lr cfg * 2) d.

(** Lines 119-134: the units the three losses and the sampler are built
    on, read off the registry as attributes; what is then read off a unit
    ([model.diffusion.diffusion]) and the constructors are the units' and
    the losses' own. *)
Definition build_losses (model : gmap string Unit) : Result () :=
  _ ← getattr model "mpd"; _ ← getattr model "msd";     (* gl, line 119 *)
  _ ← getattr model "mpd"; _ ← getattr model "msd";     (* dl, line 120 *)
  _ ← getattr model "wd";                               (* wl, line 121 *)
  _ ← getattr model "diffusion";                        (* sampler, line 128 *)
  Ok ().

(** Lines 80-189: everything [main] does before the loop over the epochs. *)
Definition startup (cfg : Config) (model : gmap string Unit) : Result Startup :=
  '(model, start_epoch, iters, th) ← load_first_stage cfg model;
  _ ← build_losses model;
  d ← scheduler_params_dict_of cfg th model;
  let optimizer := build_optimizer model d (opt_lr cfg) in
  optimizer ← adjust_learning_rates (bert_lr cfg) (ft_lr cfg) optimizer;
  let load_pretrained := load_pretrained_of cfg in
  let '(model, optimizer, start_epoch, iters) :=
    if load_pretrained then
      load_checkpoint model (Some optimizer) (pretrained_model cfg)
                      (load_only_params cfg) []
    else (model, Some optimizer, start_epoch, iters) in
  _ ← getattr model "text_aligner";    (* model.text_aligner.n_down, line 179 *)
  let iters := 0%Z in
  (* lines 188-189: [optimizer.optimizers] on what the loader handed back,
     then the two units that are printed *)
  optimizer ← match optimizer with
              | Some optimizer => Ok optimizer
              | None => Raise AttributeError
              end;
  _ ← getitem optimizer "bert";
  _ ← getitem optimizer "decoder";
  Ok (mkStartup model optimizer start_epoch iters th).

(** The state the loop over the epochs starts from. *)
Definition initial_state (su : Startup) : TrainState :=
  mkState (su_model su) (su_optimizer su) (su_iters su) 0 [] None [].

(** [main]: startup, then the loop. *)
Definition main (cfg : Config) (model : gmap string Unit) (data : Data)
  : Result TrainState :=
  su ← startup cfg model;
  training_loop cfg (su_thresholds su) data (start_epoch su) (initial_state su).

End Collaborators.

(** Modelled from the spec: [load_checkpoint] of [models.py] is not among
    the sources.  The checkpoint store contract is
    "load(path) -> (unit_states, optimizer_state, start_epoch,
    start_iteration)", with an "ignore named units" filter (the listed
    units keep their weights) and a "params-only" mode (weights are
    restored, the optimizer state is not). *)
Definition load_checkpoint_spec (store : string → Checkpoint)
  (model : gmap string Unit) (optimizer : option Optimizers) (path : string)
  (load_only_params : bool) (ignore_modules : list string)
  : gmap string Unit * option Optimizers * Z * Z :=
  let state := store path in
  let restore key u :=
    if decide (key ∈ ignore_modules) then u
    else default u (ck_net state !! key) in
  (map_imap (fun key u => Some (restore key u)) model,
   (if load_only_params then optimizer else Some (ck_optimizer state)),
   ck_epoch state, ck_iters state).

(** The units whose optimizers lines 143-168 address by name. *)
Definition has_finetuned_units {A} (d : gmap string A) : Prop :=
  is_Some (d !! "bert"%string) ∧ is_Some (d !! "decoder"%string)
  ∧ is_Some (d !! "style_encoder"%string).

(** The units lines 119-128 read off the registry. *)
Definition has_loss_units {A} (d : gmap string A) : Prop :=
  is_Some (d !! "mpd"%string) ∧ is_Some (d !! "msd"%string)
  ∧ is_Some (d !! "wd"%string) ∧ is_Some (d !! "diffusion"%string).

(** [build_optimizer] makes an optimizer for each of them when it is
    handed their parameters. *)
Definition covers_finetuned_units
  (build_optimizer : gmap string Unit → gmap string SchedulerParams → Q → Optimizers)
  : Prop :=
  ∀ params d lr, has_finetuned_units params →
                 has_finetuned_units (build_optimizer params d lr).

End Train.

(** ** Sample inputs *)

Module Examples.
Import Py Grad Optim.
Local Open Scope R_scope.

(** A predictor with one gradient in the duration head, one recurrent
    weight without gradient and one frozen weight. *)
Definition ex_pred : Unit :=
  [ mkParam "duration_proj.linear_layer.weight" true (Some [4]);
    mkParam "lstm.weight_ih_l0" true None;
    mkParam "text_encoder.embedding.weight" false (Some [3]) ].

Definition ex_diff : Unit :=
  [ mkParam "diffusion.net.to_out.weight" true (Some [2]) ].

Definition ex_dec : Unit :=
  [ mkParam "generator.conv_post.weight" true (Some [3; 4]) ].

Definition ex_bert : Unit :=
  [ mkParam "encoder.embeddings.word_embeddings.weight" true (Some [1; 2]) ].

Definition ex_style : Unit :=
  [ mkParam "unshared.weight" true (Some [6]) ].

Definition ex_model : gmap string Unit :=
  <["predictor" := ex_pred]> (<["diffusion" := ex_diff]> (<["decoder" := ex_dec]>
  (<["bert" := ex_bert]> (<["style_encoder" := ex_style]> ∅)))).

Definition ex_zero_grad (m : gmap string Unit) : gmap string Unit :=
  map (fun p => mkParam (pname p) (requires_grad p) None) <$> m.

(** A step whose scheduler tick halves the rate of the stepped unit. *)
Definition ex_tick (g : ParamGroup) : ParamGroup :=
  match g !! "lr"%string with
  | Some (HNum q) => <["lr"%string := HNum (q / 2)]> g
  | _ => g
  end.

Definition ex_optimizer_step (key : string) (o : Optimizers) : Optimizers :=
  alter (map ex_tick) key o.

Definition ex_weights : Train.LossParams :=
  Train.mkLossParams 5 1 20 1 1 1 1 1 1 1 1.

(** The shipped fine-tuning configuration, resuming from a first stage. *)
Definition ex_cfg : Train.Config :=
  Train.mkConfig 50 2 10 400 ex_weights 10 30 1e-4%Q 1e-5%Q 1e-4%Q
    "Models/LJSpeech" "" false "first_stage.pth" true false true 5 0.01 100.

(** The same configuration restoring a full second-stage checkpoint. *)
Definition ex_cfg_resume : Train.Config :=
  Train.mkConfig 50 2 10 400 ex_weights 10 30 1e-4%Q 1e-5%Q 1e-4%Q
    "Models/LJSpeech" "Models/LJSpeech/epoch_2nd_00009.pth" true "" false
    false true 5 0.01 100.

Definition ex_th : Train.Thresholds := Train.mkThresholds 15 35 55.

Definition ex_batch_of (lens : list Z) : Train.Batch :=
  Train.mkBatch lens 200 false (fun n => Z.of_nat n * 7)%Z 0.2
    (fun _ _ => (0.3, 0.4)) 1 2 3 4 5 6 7 8 9 10 0.25
    (fun _ _ => Some (1, 2)) (fun _ m => m).

Definition ex_batch : Train.Batch := ex_batch_of [200; 163; 192]%Z.

(** Its shortest utterance has 81 frames: the crops are 78 frames wide. *)
Definition ex_short_batch : Train.Batch := ex_batch_of [81; 163]%Z.

(** An optimizer per unit, each with one group holding the shared rate. *)
Definition ex_build_optimizer (params : gmap string Unit)
  (d : gmap string SchedulerParams) (lr : Q) : Optimizers :=
  (fun _ => [ {[ "lr"%string := HNum lr; "eps"%string := HNum 1e-9 ]} ]) <$> params.

(** A store whose first-stage checkpoint was written after epoch 5. *)
Definition ex_first_stage (model : gmap string Unit) (optimizer : option Optimizers)
  (path : string) (load_only_params : bool) (ignore_modules : list string)
  : gmap string Unit * option Optimizers * Z * Z :=
  (model, optimizer, 5%Z, 1234%Z).

Definition ex_state : Train.TrainState :=
  Train.mkState ex_model (ex_build_optimizer ex_model ∅ 1e-4%Q) 7 0 [] None [].

Definition ex_val_acc : Train.ValAcc := Train.mkValAcc 6 9 12 3.

(** A two-epoch run of the first configuration. *)
Definition ex_cfg_short : Train.Config :=
  Train.mkConfig 2 2 10 400 ex_weights 10 30 1e-4%Q 1e-5%Q 1e-4%Q
    "Models/LJSpeech" "" false "first_stage.pth" true false true 5 0.01 100.

(** One narrow batch per epoch, three validation batches, one failing. *)
Definition ex_data : Train.Data :=
  Train.mkData (fun _ => [ex_short_batch])
               (fun _ => [Some (Train.mkValLosses 1 2 3); None;
                          Some (Train.mkValLosses 5 7 9)]).

End Examples.

(** ** Duration targets *)

Module Duration.
Import Py.

(** [row[:stop] = v] on a one-dimensional tensor: the entries below the
    clamped stop index are overwritten one by one. *)
Definition assign_prefix (v : Z) (stop : Z) (row : list Z) : list Z :=
  foldl (fun acc j => <[j := v]> acc) row
        (seq 0 (Z.to_nat (clamp_index (Z.of_nat (length row)) stop))).

(** Lines 410-412, for one utterance whose logits have [cols] columns
    and whose ground-truth durations are [text_input] (one per row):
<<
    _s2s_trg = torch.zeros_like(_s2s_pred)
    for p in range(_s2s_trg.shape[0]):
        _s2s_trg[p, : _text_input[p]] = 1
>> *)
Definition s2s_trg (cols : nat) (text_input : list Z) : list (list Z) :=
  map (fun d => assign_prefix 1 d (replicate cols 0%Z)) text_input.

(** [t.sum()] of a one-dimensional integer tensor. *)
Definition tensor_sum (t : list Z) : Z := foldr Z.add 0%Z t.

End Duration.

(** ** Observations on the trace *)

Module Observe.
Import Py Grad Optim Train.

Definition is_step_of (key : string) (e : Event) : bool :=
  match e with OptStep k => String.eqb k key | _ => false end.

(** How often [optimizer.step(key)] was called. *)
Definition count_steps (key : string) (tr : list Event) : nat :=
  length (filter (fun e => is_step_of key e = true) tr).

Definition is_zero_grad (e : Event) : bool :=
  match e with ZeroGrad => true | _ => false end.

Definition is_torch_save (e : Event) : bool :=
  match e with TorchSave _ _ => true | _ => false end.

(** The optimizer state after the [optimizer.step] calls among [evs], in
    their order. *)
Definition replay_steps (step : string → Optimizers → Optimizers)
  (evs : list Event) (o : Optimizers) : Optimizers :=
  foldl (fun o e => match e with OptStep key => step key o | _ => o end) o evs.

Arguments replay_steps : simpl never.


(** What the surgery may not touch on a parameter: its name, its
    [requires_grad] flag, whether it has a gradient and of which size. *)
Definition shape (p : Param) : string * bool * option nat :=
  (pname p, requires_grad p, length <$> grad p).

(** The validation batches whose forward went through. *)
Definition succeeded (vs : list (option ValLosses)) : list ValLosses :=
  omap (fun v => v) vs.

(** [x <= best], where [None] is [float("inf")]. *)
Definition below_best (x : R) (best : option R) : Prop :=
  match best with None => True | Some y => (x <= y)%R end.

End Observe.

(** ** Further sample inputs *)

Module MoreExamples.
Import Py Grad Optim Examples.
Local Open Scope R_scope.

(** No first-stage path and nothing to restore. *)
Definition ex_cfg_nopath : Train.Config :=
  Train.mkConfig 50 2 10 400 ex_weights 10 30 1e-4%Q 1e-5%Q 1e-4%Q
    "Models/LJSpeech" "" false "" true false true 5 0.01 100.

(** A multispeaker configuration. *)
Definition ex_cfg_multi : Train.Config :=
  Train.mkConfig 50 2 10 400 ex_weights 10 30 1e-4%Q 1e-5%Q 1e-4%Q
    "Models/LJSpeech" "" false "first_stage.pth" true true true 5 0.01 100.

(** Thresholds with the adversarial stage ahead of the diffusion stage. *)
Definition ex_th_swapped : Train.Thresholds := Train.mkThresholds 35 15 55.



(** The thirteen units [build_model] registers. *)
Definition ex_unit (name : string) : Unit := [mkParam name true None].

Definition ex_registry : gmap string Unit :=
  <["mpd" := ex_unit "discriminators.0.convs.0.weight"]>
  (<["msd" := ex_unit "discriminators.0.convs.0.weight"]>
  (<["wd" := ex_unit "pre.weight"]>
  (<["text_aligner" := ex_unit "ctc_linear.0.linear_layer.weight"]>
  (<["text_encoder" := ex_unit "embedding.weight"]>
  (<["pitch_extractor" := ex_unit "classifier.weight"]>
  (<["bert_encoder" := ex_unit "weight"]>
  (<["predictor_encoder" := ex_unit "shared.0.weight"]> ex_model))))))).

(** A store that holds a first-stage checkpoint, written after epoch 5,
    at one path only. *)
Definition ex_first_stage_at (model : gmap string Unit)
  (optimizer : option Optimizers) (path : string) (load_only_params : bool)
  (ignore_modules : list string)
  : gmap string Unit * option Optimizers * Z * Z :=
  if String.eqb path "Models/LJSpeech/first_stage.pth"
  then (model, optimizer, 5%Z, 1234%Z)
  else (model, optimizer, 0%Z, 0%Z).

Definition ex_group : ParamGroup :=
  {[ "lr"%string := HNum 1e-4; "eps"%string := HNum 1e-9 ]}.

(** The optimizer state a run on [ex_registry] starts with when it is
    configured with the rates [bert_lr] and [ft_lr]. *)
Definition ex_saved_optimizer (bert_lr ft_lr : Q) : Optimizers :=
  <["style_encoder"%string := [adjust_acoustic ft_lr ex_group]]>
  (<["decoder"%string := [adjust_acoustic ft_lr ex_group]]>
  (<["bert"%string := [adjust_bert bert_lr ex_group]]>
  (ex_build_optimizer ex_registry ∅ 1e-4%Q))).

(** A second-stage checkpoint written after epoch 9, at iteration 7, by
    a run with the rates of [ex_cfg_resume]; and one written by a run
    whose BERT rate was twice as high. *)
Definition ex_registry_checkpoint : Train.Checkpoint :=
  Train.mkCheckpoint ex_registry (ex_saved_optimizer 1e-5 1e-4) 7 2 9.

(** A wide and a narrow batch per epoch. *)
Definition ex_data_wide : Train.Data :=
  Train.mkData (fun _ => [ex_batch; ex_short_batch])
               (fun _ => [Some (Train.mkValLosses 1 2 3); None;
                          Some (Train.mkValLosses 5 7 9)]).

(** A registry without the predictor, and one without the diffusion unit. *)
Definition ex_model_no_pred : gmap string Unit :=
  <["diffusion" := ex_diff]> (<["decoder" := ex_dec]> ∅).
Definition ex_model_no_diff : gmap string Unit :=
  <["predictor" := ex_pred]> (<["decoder" := ex_dec]> ∅).

End MoreExamples.

(** * Properties *)

(** ** Gradient norms under scaling *)

Module GradFacts.
Import Py Grad.
Local Open Scope R_scope.

Lemma sum_sq_nonneg (t : Tensor) : 0 <= sum_sq t.
Proof.
  induction t as [|x t IH]; simpl; [lra|].
  pose proof (Rle_0_sqr x) as Hx. unfold Rsqr in Hx. lra.
Qed.

Lemma sum_sq_tscale (c : R) (t : Tensor) :
  sum_sq (tscale c t) = c * c * sum_sq t.
Proof.
  unfold tscale. induction t as [|x t IH]; simpl; [ring|].
  rewrite IH. ring.
Qed.

Lemma norm2_sq (t : Tensor) : norm2 t * norm2 t = sum_sq t.
Proof. unfold norm2. apply sqrt_sqrt, sum_sq_nonneg. Qed.

Lemma param_norm_sq_nonneg (p : Param) : 0 <= param_norm p * param_norm p.
Proof. pose proof (Rle_0_sqr (param_norm p)) as H. exact H. Qed.

Lemma param_norm_pscale (c : R) (p : Param) :
  param_norm (pscale c p) * param_norm (pscale c p)
  = c * c * (param_norm p * param_norm p).
Proof.
  unfold pscale, param_norm. destruct (grad p) as [g|] eqn:Hg; simpl.
  - rewrite !norm2_sq. apply sum_sq_tscale.
  - rewrite Hg. ring.
Qed.

Lemma counted_pscale (c : R) (p : Param) : counted (pscale c p) = counted p.
Proof.
  unfold pscale, counted. destruct (grad p) eqn:Hg; simpl; [done|].
  by rewrite Hg.
Qed.

Lemma pname_pscale (c : R) (p : Param) : pname (pscale c p) = pname p.
Proof. unfold pscale. by destruct (grad p). Qed.

(** The two scalings compose multiplicatively. *)
Lemma pscale_pscale (a b : R) (p : Param) :
  pscale a (pscale b p) = pscale (a * b) p.
Proof.
  unfold pscale. destruct (grad p) as [g|] eqn:Hg; simpl.
  - f_equal. f_equal. unfold tscale. rewrite map_map.
    apply map_ext. intros x. ring.
  - by rewrite Hg.
Qed.

Lemma foldl_sq_acc (a : R) (l : list Param) :
  foldl (fun acc p => acc + param_norm p * param_norm p) a l
  = a + foldl (fun acc p => acc + param_norm p * param_norm p) 0 l.
Proof.
  revert a. induction l as [|p l IH]; intros a; simpl; [ring|].
  rewrite (IH (a + _)), (IH (0 + _)). ring.
Qed.

Lemma unit_sq_cons (p : Param) (u : Unit) :
  unit_sq (p :: u)
  = (if counted p then param_norm p * param_norm p else 0) + unit_sq u.
Proof.
  unfold unit_sq. rewrite filter_cons.
  destruct (counted p); case_decide; try done; simpl.
  - rewrite foldl_sq_acc. ring.
  - ring.
Qed.

Lemma unit_sq_nonneg (u : Unit) : 0 <= unit_sq u.
Proof.
  induction u as [|p u IH]; [unfold unit_sq; simpl; lra|].
  rewrite unit_sq_cons. pose proof (param_norm_sq_nonneg p).
  destruct (counted p); lra.
Qed.

Lemma unit_sq_pscale (c : R) (u : Unit) :
  unit_sq (map (pscale c) u) = c * c * unit_sq u.
Proof.
  induction u as [|p u IH]; [unfold unit_sq; simpl; ring|].
  simpl. rewrite !unit_sq_cons, IH, counted_pscale, param_norm_pscale.
  destruct (counted p); ring.
Qed.

Lemma unit_norm_unfold (u : Unit) : unit_norm u = sqrt (unit_sq u).
Proof. reflexivity. Qed.

Lemma unit_norm_nonneg (u : Unit) : 0 <= unit_norm u.
Proof. rewrite unit_norm_unfold. apply sqrt_pos. Qed.

(** Multiplying every gradient of a unit by [c] multiplies its norm by
    [|c|]. *)
Lemma unit_norm_pscale (c : R) (u : Unit) :
  unit_norm (map (pscale c) u) = Rabs c * unit_norm u.
Proof.
  rewrite !unit_norm_unfold, unit_sq_pscale.
  rewrite sqrt_mult; [|apply Rle_0_sqr|apply unit_sq_nonneg].
  f_equal. apply sqrt_Rsqr_abs.
Qed.

Lemma unit_norm_rescaled (n : R) (u : Unit) :
  0 < n → unit_norm (map (pscale (1 / n)) u) = unit_norm u / n.
Proof.
  intros Hn. rewrite unit_norm_pscale, Rabs_right.
  - field. lra.
  - apply Rle_ge. apply Rlt_le. apply Rdiv_lt_0_compat; lra.
Qed.

End GradFacts.

(** ** The gradient surgery of the adversarial stage *)

Module SurgeryFacts.
Import Py Grad GradFacts.
Local Open Scope R_scope.

(** When the predictor norm exceeds the threshold, every unit is handed
    to [pscale (1 / norm)]. *)
Lemma gradient_scaling_triggered (thresh : R) (model : gmap string Unit)
  (pred : Unit) :
  model !! "predictor"%string = Some pred →
  unit_norm pred > thresh →
  unit_norm pred ≠ 0 →
  gradient_scaling thresh model = Ok (rescale_all (1 / unit_norm pred) model).
Proof.
  intros Hp Hgt Hnz. unfold gradient_scaling, getitem, total_norm.
  rewrite lookup_fmap, Hp. simpl.
  destruct (Rgt_dec (unit_norm pred) thresh) as [_|Hn]; [|contradiction].
  destruct (Req_dec_T (unit_norm pred) 0) as [Hz|_]; [contradiction|done].
Qed.

Lemma gradient_scaling_idle (thresh : R) (model : gmap string Unit)
  (pred : Unit) :
  model !! "predictor"%string = Some pred →
  ¬ unit_norm pred > thresh →
  gradient_scaling thresh model = Ok model.
Proof.
  intros Hp Hle. unfold gradient_scaling, getitem, total_norm.
  rewrite lookup_fmap, Hp. simpl.
  destruct (Rgt_dec (unit_norm pred) thresh); [contradiction|done].
Qed.

Lemma rescale_all_lookup (c : R) (model : gmap string Unit) (key : string) :
  rescale_all c model !! key = map (pscale c) <$> model !! key.
Proof. unfold rescale_all. apply lookup_fmap. Qed.

Lemma prefix_cons (a b : ascii) (s1 s2 : string) :
  String.prefix (String a s1) (String b s2)
  = if Ascii.ascii_dec a b then String.prefix s1 s2 else false.
Proof. reflexivity. Qed.

Lemma prefix_head (a : ascii) (s1 s2 : string) :
  String.prefix (String a s1) s2 = true → ∃ t, s2 = String a t.
Proof.
  destruct s2 as [|b s2]; [discriminate|]. rewrite prefix_cons.
  destruct (Ascii.ascii_dec a b) as [->|]; [eauto|discriminate].
Qed.

(** No parameter lies below both child modules. *)
Lemma in_submodule_disjoint (p : Param) :
  in_submodule "duration_proj" p = true → in_submodule "lstm" p = false.
Proof.
  unfold in_submodule. intros H.
  apply prefix_head in H as [t ->].
  change ("lstm" ++ ".")%string with (String "l"%char "stm.").
  rewrite prefix_cons.
  destruct (Ascii.ascii_dec "l"%char "d"%char); [discriminate|done].
Qed.

Lemma in_submodule_pscale (sub : string) (c : R) (p : Param) :
  in_submodule sub (pscale c p) = in_submodule sub p.
Proof. unfold in_submodule. by rewrite pname_pscale. Qed.

(** The two passes over the predictor amount to one pass over the
    parameters of either child module. *)
Lemma amplify_sub_twice (scale : R) (u : Unit) :
  amplify_sub "lstm" scale (amplify_sub "duration_proj" scale u)
  = map (fun p => if in_submodule "duration_proj" p || in_submodule "lstm" p
                  then pscale scale p else p) u.
Proof.
  unfold amplify_sub. rewrite map_map. apply map_ext. intros p.
  destruct (in_submodule "duration_proj" p) eqn:Hd; simpl.
  - rewrite in_submodule_pscale, (in_submodule_disjoint p Hd). done.
  - done.
Qed.

(** What [targeted_amplification] leaves in every unit. *)
Lemma targeted_amplification_lookup (scale : R) (model : gmap string Unit) :
  is_Some (model !! "predictor"%string) →
  is_Some (model !! "diffusion"%string) →
  ∃ model', targeted_amplification scale model = Ok model' ∧
    ∀ key u, model !! key = Some u →
      model' !! key
      = Some (map (fun p => if amplified key p then pscale scale p else p) u).
Proof.
  intros [pred Hp] [diff Hd]. unfold targeted_amplification, getattr.
  rewrite Hp. simpl.
  rewrite !lookup_alter_ne, Hd by done. simpl.
  eexists; split; [reflexivity|].
  intros key u Hu. unfold amplified.
  destruct (decide (key = "predictor"%string)) as [->|Hnp].
  - rewrite lookup_alter_ne by done. rewrite !lookup_alter_eq, Hu. simpl.
    by rewrite amplify_sub_twice.
  - destruct (decide (key = "diffusion"%string)) as [->|Hnd].
    + rewrite lookup_alter_eq, !lookup_alter_ne, Hu by done. done.
    + rewrite !lookup_alter_ne, Hu by done.
      rewrite bool_decide_eq_false_2 by done.
      f_equal. clear Hu. induction u as [|p u IH]; [done|]. simpl. f_equal.
      apply IH.
Qed.

End SurgeryFacts.

(** ** Claims on the gradient surgery *)

Module SurgeryClaims.
Import Py Grad GradFacts SurgeryFacts Examples.
Local Open Scope R_scope.

Lemma ex_pred_norm : unit_norm ex_pred = 4.
Proof.
  rewrite unit_norm_unfold. unfold ex_pred.
  rewrite !unit_sq_cons. cbn [counted grad requires_grad param_norm].
  rewrite norm2_sq. change (unit_sq []) with 0. cbn [sum_sq foldr].
  replace (4 * 4 + 0 + (0 + (0 + 0))) with (4 * 4) by ring.
  apply sqrt_square. lra.
Qed.

Lemma ex_model_predictor : ex_model !! "predictor"%string = Some ex_pred.
Proof. reflexivity. Qed.

(** C1 (as amended): once the predictor's gradient norm exceeds the
    threshold, the gradients of every unit are multiplied by
    [1 / predictor_norm]; the threshold does not enter the factor.  Every
    unit's gradient norm is thereby divided by the predictor norm, and when
    that norm is exactly twice the threshold, by [2 * thresh]. *)
Theorem gradient_scaling_divides_by_predictor_norm
  (thresh : R) (model : gmap string Unit) (pred : Unit) :
  model !! "predictor"%string = Some pred →
  unit_norm pred > thresh →
  unit_norm pred ≠ 0 →
  ∃ model', gradient_scaling thresh model = Ok model' ∧
    ∀ key u, model !! key = Some u →
      ∃ u', model' !! key = Some u'
        ∧ u' = map (pscale (1 / unit_norm pred)) u
        ∧ unit_norm u' = unit_norm u / unit_norm pred
        ∧ (unit_norm pred = 2 * thresh →
           unit_norm u' = unit_norm u / (2 * thresh)).
Proof.
  intros Hp Hgt Hnz.
  exists (rescale_all (1 / unit_norm pred) model). split.
  - by apply gradient_scaling_triggered.
  - intros key u Hu. eexists. split; [|split; [reflexivity|]].
    + by rewrite rescale_all_lookup, Hu.
    + assert (0 < unit_norm pred) as Hpos.
      { pose proof (unit_norm_nonneg pred). lra. }
      split.
      * by apply unit_norm_rescaled.
      * intros <-. by apply unit_norm_rescaled.
Qed.

Lemma gradient_scaling_divides_by_predictor_norm_witness :
  ∃ model', gradient_scaling 2 ex_model = Ok model' ∧
    ∀ key u, ex_model !! key = Some u →
      ∃ u', model' !! key = Some u'
        ∧ u' = map (pscale (1 / unit_norm ex_pred)) u
        ∧ unit_norm u' = unit_norm u / unit_norm ex_pred
        ∧ (unit_norm ex_pred = 2 * 2 →
           unit_norm u' = unit_norm u / (2 * 2)).
Proof.
  apply (gradient_scaling_divides_by_predictor_norm 2 ex_model ex_pred).
  - reflexivity.
  - rewrite ex_pred_norm. lra.
  - rewrite ex_pred_norm. lra.
Defined.

(** C1 as stated fails: with threshold 2 and a predictor norm of 4 the
    gradients are multiplied by 1/4, so the predictor's own norm drops to
    1, a quarter of its value, where a factor of [thresh / norm] would
    leave 2, the half. *)
Lemma gradient_scaling_not_threshold_over_norm :
  ¬ (∀ (thresh : R) (model model' : gmap string Unit) (pred : Unit),
       model !! "predictor"%string = Some pred →
       unit_norm pred > thresh →
       gradient_scaling thresh model = Ok model' →
       model' = rescale_all (thresh / unit_norm pred) model
       ∧ (unit_norm pred = 2 * thresh →
          ∀ key u u', model !! key = Some u → model' !! key = Some u' →
            unit_norm u' = unit_norm u / 2)).
Proof.
  intros H.
  assert (unit_norm ex_pred > 2) as Hgt by (rewrite ex_pred_norm; lra).
  assert (unit_norm ex_pred ≠ 0) as Hnz by (rewrite ex_pred_norm; lra).
  pose proof (gradient_scaling_triggered 2 ex_model ex_pred
                ex_model_predictor Hgt Hnz) as Hs.
  destruct (H 2 ex_model _ ex_pred ex_model_predictor Hgt Hs) as [_ Hhalf].
  specialize (Hhalf ltac:(rewrite ex_pred_norm; lra)
                "predictor"%string ex_pred
                (map (pscale (1 / unit_norm ex_pred)) ex_pred)
                ex_model_predictor).
  rewrite rescale_all_lookup, ex_model_predictor in Hhalf.
  specialize (Hhalf eq_refl).
  rewrite unit_norm_rescaled in Hhalf by lra.
  rewrite ex_pred_norm in Hhalf. lra.
Qed.

Lemma map_Rmult_1 (g : Tensor) : map (Rmult 1) g = g.
Proof.
  induction g as [|x g IH]; [done|]. cbn [map]. rewrite IH. f_equal. ring.
Qed.

(** C3: the surgery first applies the global rescale and then the
    amplification.  With [c] the factor of the rescale ([1 / predictor
    norm] when the norm exceeds the threshold, 1 otherwise), it leaves
    every parameter its name and flag, turns every gradient entry [x] of
    the predictor's parameters below [duration_proj.] or [lstm.] and of
    all parameters of the diffusion unit into [scale * (c * x)], and every
    gradient entry of every other parameter into [c * x]. *)
Theorem gradient_surgery_rescales_then_amplifies
  (thresh scale : R) (model : gmap string Unit) (pred diff : Unit) :
  model !! "predictor"%string = Some pred →
  model !! "diffusion"%string = Some diff →
  (unit_norm pred > thresh → unit_norm pred ≠ 0) →
  let c := if Rgt_dec (unit_norm pred) thresh then 1 / unit_norm pred else 1 in
  let targeted := fun (key : string) (p : Param) =>
    if decide (key = "predictor"%string)
    then String.prefix "duration_proj." (pname p)
         || String.prefix "lstm." (pname p)
    else bool_decide (key = "diffusion"%string) in
  ∃ model', gradient_surgery thresh scale model = Ok model' ∧
    ∀ key u, model !! key = Some u →
      model' !! key
      = Some (map (fun p =>
                mkParam (pname p) (requires_grad p)
                  (map (fun x => if targeted key p
                                 then scale * (c * x) else c * x)
                   <$> grad p)) u).
Proof.
  intros Hp Hd Hnz c targeted. unfold gradient_surgery.
  assert (∃ m1, gradient_scaling thresh model = Ok m1 ∧
            ∀ key, m1 !! key = map (pscale c) <$> model !! key)
    as (m1 & -> & Hm1).
  { unfold c. destruct (Rgt_dec (unit_norm pred) thresh) as [Hgt|Hle].
    - eexists. split; [by apply gradient_scaling_triggered; auto|].
      intros key. apply rescale_all_lookup.
    - eexists. split; [by eapply gradient_scaling_idle|].
      intros key. destruct (model !! key) as [u|]; simpl; [|done].
      f_equal. induction u as [|p u IH]; [done|]. cbn [map].
      rewrite <- IH. f_equal. unfold pscale, tscale.
      destruct p as [n r [g|]]; cbn [pname requires_grad grad]; [|done].
      by rewrite map_Rmult_1. }
  cbn [mbind result_bind].
  destruct (targeted_amplification_lookup scale m1) as (m2 & -> & Hm2).
  { rewrite Hm1, Hp. by eexists. }
  { rewrite Hm1, Hd. by eexists. }
  exists m2. split; [done|].
  intros key u Hu. rewrite (Hm2 key (map (pscale c) u)) by (by rewrite Hm1, Hu).
  f_equal. rewrite map_map. apply map_ext. intros p.
  assert (amplified key (pscale c p) = targeted key p) as ->.
  { unfold amplified, targeted, in_submodule, pscale.
    by destruct p as [n r [g|]]. }
  unfold pscale, tscale.
  destruct p as [n r [g|]]; cbn [pname requires_grad grad fmap option_fmap
                                 option_map];
    destruct (targeted key _); cbn [grad pname requires_grad];
    try reflexivity.
  by rewrite map_map.
Qed.

Lemma gradient_surgery_rescales_then_amplifies_witness :
  ∃ model', gradient_surgery 2 10 ex_model = Ok model' ∧
    model' !! "diffusion"%string
    = Some [mkParam "diffusion.net.to_out.weight" true
              (Some [10 * (1 / 4 * 2)])] ∧
    model' !! "decoder"%string
    = Some [mkParam "generator.conv_post.weight" true
              (Some [1 / 4 * 3; 1 / 4 * 4])] ∧
    model' !! "predictor"%string
    = Some [mkParam "duration_proj.linear_layer.weight" true
              (Some [10 * (1 / 4 * 4)]);
            mkParam "lstm.weight_ih_l0" true None;
            mkParam "text_encoder.embedding.weight" false
              (Some [1 / 4 * 3])].
Proof.
  destruct (gradient_surgery_rescales_then_amplifies 2 10 ex_model ex_pred ex_diff)
    as (model' & Hrun & Hall).
  - reflexivity.
  - reflexivity.
  - rewrite ex_pred_norm. lra.
  - exists model'. split; [exact Hrun|].
    pose proof (Hall "diffusion"%string ex_diff eq_refl) as Hdf.
    pose proof (Hall "decoder"%string ex_dec eq_refl) as Hdc.
    pose proof (Hall "predictor"%string ex_pred eq_refl) as Hpr.
    destruct (Rgt_dec (unit_norm ex_pred) 2) as [_|Hn].
    + rewrite ex_pred_norm in Hdf, Hdc, Hpr.
      split; [exact Hdf|]. split; [exact Hdc|exact Hpr].
    + exfalso. apply Hn. rewrite ex_pred_norm. lra.
Defined.

End SurgeryClaims.

(** ** Segment sampling *)

Module CropFacts.
Import Py Train.
Local Open Scope Z_scope.

Lemma int_trunc_half (m : Z) : int_trunc (inject_Z m / 2) = m ÷ 2.
Proof. unfold int_trunc. simpl. f_equal. lia. Qed.

Lemma int_trunc_half_minus_one (m : Z) :
  int_trunc (inject_Z m / 2 - 1) = (m - 2) ÷ 2.
Proof. unfold int_trunc. simpl. f_equal. lia. Qed.

Lemma foldl_min_le (x : Z) (xs : list Z) :
  foldl Z.min x xs <= x ∧ ∀ y, y ∈ xs → foldl Z.min x xs <= y.
Proof.
  revert x. induction xs as [|z xs IH]; intros x; simpl.
  - split; [lia|]. intros y Hy. by apply elem_of_nil in Hy.
  - destruct (IH (Z.min x z)) as [H1 H2]. split; [lia|].
    intros y Hy. apply elem_of_cons in Hy as [->|Hy]; [lia|auto].
Qed.

Lemma tensor_min_le (lens : list Z) (mn : Z) :
  tensor_min lens = Ok mn → ∀ len, len ∈ lens → mn <= len.
Proof.
  destruct lens as [|x xs]; simpl; [discriminate|].
  intros [= <-] len Hlen. destruct (foldl_min_le x xs) as [H1 H2].
  apply elem_of_cons in Hlen as [->|Hlen]; auto.
Qed.

(** For a batch minimum of at least 2, [int(mn / 2 - 1)] is
    [floor(mn / 2) - 1]. *)
Lemma mel_len_st_floor (mn : Z) :
  2 <= mn → mel_len_st_of mn = mn `div` 2 - 1.
Proof.
  intros H. unfold mel_len_st_of. rewrite int_trunc_half_minus_one.
  rewrite Z.quot_div_nonneg by lia.
  replace (mn - 2) with (mn + (-1) * 2) by lia.
  rewrite Z.div_add by lia. lia.
Qed.

Lemma half_above_crop (mn len : Z) :
  2 <= mn → mn <= len → mel_len_st_of mn < int_trunc (inject_Z len / 2).
Proof.
  intros H2 Hle. rewrite mel_len_st_floor, int_trunc_half by lia.
  rewrite Z.quot_div_nonneg by lia.
  assert (mn `div` 2 <= len `div` 2) by (apply Z.div_le_mono; lia). lia.
Qed.

Lemma mel_len_le_st (max_len mn : Z) : mel_len_of max_len mn <= mel_len_st_of mn.
Proof. unfold mel_len_of, mel_len_st_of. lia. Qed.

Lemma randint_ok (high : Z) (g : Rng) :
  0 < high →
  ∃ v g', randint 0 high g = Ok (v, g') ∧ 0 <= v < high.
Proof.
  intros H. unfold randint. rewrite (proj2 (Z.ltb_lt 0 high) H).
  eexists _, _. split; [reflexivity|].
  rewrite Z.sub_0_r. pose proof (Z.mod_pos_bound (g 0%nat) high H). lia.
Qed.

Lemma randint_raises (high : Z) (g : Rng) :
  high <= 0 → randint 0 high g = Raise ValueError.
Proof.
  intros H. unfold randint.
  by rewrite (proj2 (Z.ltb_ge 0 high) H).
Qed.

Lemma sample_segments_ok (mel_len mel_len_st : Z) (lens : list Z) (g : Rng) :
  (∀ len, len ∈ lens →
     mel_len < int_trunc (inject_Z len / 2) ∧
     mel_len_st < int_trunc (inject_Z len / 2)) →
  ∃ offsets g', sample_segments mel_len mel_len_st lens g = Ok (offsets, g') ∧
    Forall2 (offsets_in_range mel_len mel_len_st) lens offsets.
Proof.
  revert g. induction lens as [|len lens IH]; intros g Hall.
  - exists [], g. split; [reflexivity|constructor].
  - destruct (Hall len) as [H1 H2]; [apply elem_of_cons; by left|].
    destruct (randint_ok (int_trunc (inject_Z len / 2) - mel_len) g)
      as (v1 & g1 & E1 & R1); [lia|].
    destruct (randint_ok (int_trunc (inject_Z len / 2) - mel_len_st) g1)
      as (v2 & g2 & E2 & R2); [lia|].
    destruct (IH g2) as (tl & g3 & E3 & R3).
    { intros l Hl. apply Hall. apply elem_of_cons. by right. }
    exists ((v1, v2) :: tl), g3. split.
    + simpl. rewrite E1. simpl. rewrite E2. simpl. rewrite E3. reflexivity.
    + constructor; [|exact R3]. split; assumption.
Qed.

Lemma slice_len_in_range (n a b : Z) :
  0 <= a → a <= b → b <= n → slice_len n a b = b - a.
Proof.
  intros Ha Hab Hbn. unfold slice_len, clamp_index.
  rewrite (proj2 (Z.ltb_ge a 0)) by lia.
  rewrite (proj2 (Z.ltb_ge b 0)) by lia. lia.
Qed.

Lemma stack_size_const (w : Z) (ws : list Z) :
  ws ≠ [] → Forall (fun x => x = w) ws → stack_size ws = Ok w.
Proof.
  destruct ws as [|x xs]; [done|]. intros _ H.
  apply Forall_cons in H as [-> H]. simpl.
  replace (forallb (Z.eqb w) xs) with true; [done|].
  symmetry. apply forallb_forall. intros y Hy.
  rewrite Forall_forall in H. apply Z.eqb_eq. symmetry. apply H.
  by apply list_elem_of_In.
Qed.

(** Cut out of a padded batch, every crop has its full width: twice the
    crop length, counted in mel frames. *)
Lemma crop_widths (frames mel_len mel_len_st : Z) (lens : list Z)
  (offsets : list (Z * Z)) :
  0 <= mel_len → 0 <= mel_len_st →
  (∀ len, len ∈ lens → len <= frames) →
  Forall2 (offsets_in_range mel_len mel_len_st) lens offsets →
  Forall (fun x => x = 2 * mel_len)
    (map (fun o => slice_len frames (o.1 * 2) ((o.1 + mel_len) * 2)) offsets)
  ∧ Forall (fun x => x = 2 * mel_len_st)
    (map (fun o => slice_len frames (o.2 * 2) ((o.2 + mel_len_st) * 2)) offsets).
Proof.
  intros Hm Hs Hfr H. induction H as [|len o lens offsets [H1 H2] _ IH].
  - split; constructor.
  - destruct IH as [IH1 IH2].
    { intros l Hl. apply Hfr. apply elem_of_cons. by right. }
    assert (len <= frames) as Hlen by (apply Hfr, elem_of_cons; by left).
    rewrite int_trunc_half in H1, H2.
    assert (0 <= len) as Hpos.
    { assert (0 < len ÷ 2) as Hq by lia. revert Hq. clear.
      intros Hq. Z.quot_rem_to_equations. lia. }
    pose proof (Z.quot_div_nonneg len 2 Hpos) as Hq.
    pose proof (Z.mul_div_le len 2). simpl.
    split; constructor; try assumption;
      rewrite slice_len_in_range; lia.
Qed.

Lemma crop_segments_full_width cfg b g mn :
  tensor_min (mel_input_length b) = Ok mn →
  2 <= mn →
  0 <= max_len cfg →
  (∀ len, len ∈ mel_input_length b → len <= mels_frames b) →
  ∃ offsets,
    crop_segments cfg b g
    = Ok (mel_len_of (max_len cfg) mn, offsets, 2 * mel_len_of (max_len cfg) mn).
Proof.
  intros Hmin H2 Hmax Hfr. unfold crop_segments. rewrite Hmin. simpl.
  assert (0 <= mel_len_st_of mn) as Hst.
  { rewrite mel_len_st_floor by done.
    assert (1 <= mn `div` 2) by (apply Z.div_le_lower_bound; lia). lia. }
  assert (0 <= mel_len_of (max_len cfg) mn) as Hml.
  { unfold mel_len_of. fold (mel_len_st_of mn).
    assert (0 <= max_len cfg `div` 2) by (apply Z.div_pos; lia). lia. }
  destruct (sample_segments_ok (mel_len_of (max_len cfg) mn) (mel_len_st_of mn)
              (mel_input_length b) g) as (offsets & g' & -> & Hrange).
  { intros len Hlen.
    pose proof (tensor_min_le _ _ Hmin len Hlen) as Hle.
    pose proof (half_above_crop mn len H2 Hle).
    pose proof (mel_len_le_st (max_len cfg) mn). lia. }
  simpl. exists offsets.
  destruct (crop_widths (mels_frames b) _ _ _ _ Hml Hst Hfr Hrange) as [Hw Hs].
  assert (offsets ≠ []) as Hne.
  { intros ->. apply Forall2_nil_inv_r in Hrange.
    rewrite Hrange in Hmin. discriminate. }
  assert (∀ f : Z * Z → Z, map f offsets ≠ []) as Hmap.
  { intros f Hf. apply Hne. destruct offsets; [done|discriminate]. }
  unfold gt_size, st_size.
  rewrite (stack_size_const _ _ (Hmap _) Hw). simpl.
  rewrite (stack_size_const _ _ (Hmap _) Hs). reflexivity.
Qed.

End CropFacts.

(** ** Frame properties of the training step *)

Module StepFacts.
Import Py Grad Optim Train Observe.

(** Projections of updated states, reduced without unfolding the whole
    chain of updates. *)
Ltac unfold_state :=
  cbn [trace model optimizers iters running_loss running_std best_loss
       emit opt_step backward opt_zero_grad set_model set_optimizers
       set_iters set_running_loss set_running_std set_best_loss] in *.

Lemma replay_steps_app step (l1 l2 : list Event) (o : Optimizers) :
  replay_steps step (l1 ++ l2) o = replay_steps step l2 (replay_steps step l1 o).
Proof. unfold replay_steps. apply foldl_app. Qed.






Section WithCollaborators.
Variable zero_grad : gmap string Unit → gmap string Unit.
Variable optimizer_step : string → Optimizers → Optimizers.

Lemma main_updates_trace cfg th epoch b loss_sty loss_diff s :
  trace (main_updates zero_grad optimizer_step cfg th epoch b loss_sty loss_diff s)
  = trace s ++ main_events cfg th epoch b loss_sty loss_diff.
Proof.
  unfold main_updates, main_events. unfold_state.
  destruct (epoch >=? diff_epoch th)%Z; simpl;
    rewrite <- ?app_assoc; reflexivity.
Qed.

Lemma main_updates_model cfg th epoch b loss_sty loss_diff s :
  model (main_updates zero_grad optimizer_step cfg th epoch b loss_sty loss_diff s)
  = autograd b GLoss (zero_grad (autograd b DLoss (zero_grad (model s)))).
Proof.
  unfold main_updates. unfold_state.
  destruct (epoch >=? diff_epoch th)%Z; reflexivity.
Qed.

Lemma main_updates_frame cfg th epoch b loss_sty loss_diff s :
  let s' := main_updates zero_grad optimizer_step cfg th epoch b
                         loss_sty loss_diff s in
  iters s' = iters s
  ∧ running_std s' = running_std s ∧ best_loss s' = best_loss s.
Proof.
  unfold main_updates. unfold_state.
  destruct (epoch >=? diff_epoch th)%Z; simpl; auto.
Qed.

(** The optimizer state moves with the steps of the main updates. *)
Lemma main_updates_optimizers cfg th epoch b loss_sty loss_diff s :
  optimizers (main_updates zero_grad optimizer_step cfg th epoch b
                           loss_sty loss_diff s)
  = replay_steps optimizer_step (main_events cfg th epoch b loss_sty loss_diff)
                 (optimizers s).
Proof.
  unfold main_updates, main_events. unfold_state.
  destruct (epoch >=? diff_epoch th)%Z; reflexivity.
Qed.

(** Below [joint_epoch] the adversarial stage is the identity. *)
Lemma slm_stage_gated cfg th epoch i b s :
  (epoch < joint_epoch th)%Z →
  slm_stage zero_grad optimizer_step cfg th epoch i b s = Ok (0%R, 0%R, s).
Proof.
  intros H. unfold slm_stage.
  destruct (epoch >=? joint_epoch th)%Z eqn:E; [|reflexivity].
  apply Z.geb_le in E. lia.
Qed.

Lemma slm_stage_frame cfg th epoch i b s d l s' :
  slm_stage zero_grad optimizer_step cfg th epoch i b s = Ok (d, l, s') →
  iters s' = iters s
  ∧ running_std s' = running_std s ∧ best_loss s' = best_loss s.
Proof.
  unfold slm_stage.
  destruct (epoch >=? joint_epoch th)%Z; [|by intros [= <- <- <-]].
  destruct (multispeaker cfg && negb (epoch >=? diff_epoch th)%Z);
    [discriminate|].
  destruct (slmadv b i _) as [[d' l']|]; [|by intros [= <- <- <-]].
  destruct (gradient_surgery _ _ _) as [e|g]; simpl; [discriminate|].
  destruct (Req_dec_T d' 0); intros [= <- <- <-]; unfold_state; simpl; auto.
Qed.

(** The optimizer state moves with the steps of the adversarial stage. *)
Lemma slm_stage_optimizers cfg th epoch i b s d l s' :
  slm_stage zero_grad optimizer_step cfg th epoch i b s = Ok (d, l, s') →
  optimizers s'
  = replay_steps optimizer_step (slm_events cfg th epoch i b) (optimizers s).
Proof.
  unfold slm_stage, slm_events.
  destruct (epoch >=? joint_epoch th)%Z; [|by intros [= <- <- <-]].
  destruct (multispeaker cfg && negb (epoch >=? diff_epoch th)%Z);
    [discriminate|].
  destruct (slmadv b i _) as [[d' l']|]; [|by intros [= <- <- <-]].
  destruct (gradient_surgery _ _ _) as [e|g]; simpl; [discriminate|].
  destruct (Req_dec_T d' 0); intros [= <- <- <-]; unfold_state; reflexivity.
Qed.

Lemma log_step_frame cfg i b ls ld d l s s' :
  log_step cfg i b ls ld d l s = Ok s' →
  model s' = model s ∧ optimizers s' = optimizers s ∧ iters s' = iters s
  ∧ running_std s' = running_std s ∧ best_loss s' = best_loss s
  ∧ ∃ evs, trace s' = trace s ++ evs ∧ Forall (fun e => is_add_scalar e = true) evs.
Proof.
  unfold log_step. destruct (pymod _ _) as [e|r]; simpl; [discriminate|].
  destruct (r =? 0)%Z; intros [= <-]; unfold_state; simpl.
  - repeat split; try reflexivity. eexists. split; [reflexivity|].
    repeat constructor.
  - repeat split; try reflexivity. exists []. by rewrite app_nil_r.
Qed.

Lemma denoiser_training_frame cfg th epoch b g s ls ld g' s' :
  denoiser_training cfg th epoch b g s = Ok (ls, ld, g', s') →
  model s' = model s ∧ optimizers s' = optimizers s ∧ iters s' = iters s
  ∧ trace s' = trace s ∧ best_loss s' = best_loss s
  ∧ running_loss s' = running_loss s.
Proof.
  unfold denoiser_training. destruct (epoch >=? diff_epoch th)%Z.
  - destruct (randint 3 5 g) as [e|[n g1]]; simpl; [discriminate|].
    destruct (diffusion_losses b _ n) as [x y].
    destruct (estimate_sigma_data cfg); intros [= <- <- <- <-];
      unfold_state; simpl; auto 10.
  - intros [= <- <- <- <-]. auto 10.
Qed.

End WithCollaborators.
End StepFacts.

(** ** Claims on the training step *)

Module StepClaims.
Import Py Grad Optim Train Observe StepFacts CropFacts Examples.

Section WithCollaborators.
Variable zero_grad : gmap string Unit → gmap string Unit.
Variable optimizer_step : string → Optimizers → Optimizers.

Lemma slm_stage_trace cfg th epoch i b s d l s' :
  slm_stage zero_grad optimizer_step cfg th epoch i b s = Ok (d, l, s') →
  trace s' = trace s ++ slm_events cfg th epoch i b.
Proof.
  unfold slm_stage, slm_events.
  destruct (epoch >=? joint_epoch th)%Z;
    [|intros [= <- <- <-]; by rewrite app_nil_r].
  destruct (multispeaker cfg && negb (epoch >=? diff_epoch th)%Z);
    [discriminate|].
  destruct (slmadv b i _) as [[d' l']|]; [|by intros [= <- <- <-]].
  destruct (gradient_surgery _ _ _) as [e|g]; simpl; [discriminate|].
  destruct (Req_dec_T d' 0); intros [= <- <- <-]; unfold_state; simpl;
    rewrite <- ?app_assoc; reflexivity.
Qed.

(** A step that returns either took the [continue] at the width check or
    issued the main updates, the adversarial stage and the log record. *)
Lemma finish_step_cases cfg th epoch i b ls ld g s s' :
  finish_step zero_grad optimizer_step cfg th epoch i b ls ld g s = Ok s' →
  s' = s ∨
  ∃ log_evs,
    trace s' = trace s ++ main_events cfg th epoch b ls ld
                       ++ slm_events cfg th epoch i b ++ log_evs
    ∧ Forall (fun e => is_add_scalar e = true) log_evs
    ∧ iters s' = (iters s + 1)%Z
    ∧ optimizers s'
      = replay_steps optimizer_step
          (main_events cfg th epoch b ls ld ++ slm_events cfg th epoch i b)
          (optimizers s)
    ∧ (slm_events cfg th epoch i b = [] →
       model s' = autograd b GLoss (zero_grad (autograd b DLoss
                                     (zero_grad (model s))))).
Proof.
  unfold finish_step.
  destruct (crop_segments cfg b g) as [e|[[ml offs] w]];
    cbn [mbind result_bind]; [discriminate|].
  destruct (w <? 80)%Z; [intros [= <-]; by left|].
  destruct (slm_stage _ _ _ _ _ _ _ _) as [e|[[d l] s2]] eqn:Hslm;
    cbn [mbind result_bind]; [discriminate|].
  intros Hlog. right.
  apply log_step_frame in Hlog
    as (Hm & Ho & Hi & _ & _ & evs & Ht & Hevs).
  pose proof (slm_stage_trace _ _ _ _ _ _ _ _ _ Hslm) as Hst.
  pose proof (slm_stage_frame _ _ _ _ _ _ _ _ _ _ _ Hslm) as (Hi2 & _).
  pose proof (slm_stage_optimizers _ _ _ _ _ _ _ _ _ _ _ Hslm) as Ho2.
  pose proof (main_updates_frame zero_grad optimizer_step cfg th epoch b ls ld s)
    as (Hi1 & _).
  exists evs. split; [|split; [exact Hevs|split; [|split]]].
  - rewrite Ht. simpl. rewrite Hst, main_updates_trace.
    by rewrite <- !app_assoc.
  - rewrite Hi. simpl. rewrite Hi2, Hi1. done.
  - rewrite Ho. cbn [optimizers set_iters].
    by rewrite Ho2, main_updates_optimizers, replay_steps_app.
  - intros Hnil. rewrite Hm. simpl.
    revert Hslm. unfold slm_stage. revert Hnil. unfold slm_events.
    destruct (epoch >=? joint_epoch th)%Z; [discriminate|].
    intros _ [= _ _ <-]. apply main_updates_model.
Qed.

Lemma main_events_not_slm cfg th epoch b ls ld :
  Forall (fun e => is_slm_event e = false) (main_events cfg th epoch b ls ld).
Proof.
  unfold main_events. destruct (epoch >=? diff_epoch th)%Z;
    repeat constructor.
Qed.

Lemma add_scalar_not_slm (evs : list Event) :
  Forall (fun e => is_add_scalar e = true) evs →
  Forall (fun e => is_slm_event e = false) evs.
Proof.
  intros H. eapply Forall_impl; [exact H|].
  intros [] He; try discriminate. reflexivity.
Qed.

Lemma slm_events_gated cfg th epoch i b :
  (epoch < joint_epoch th)%Z → slm_events cfg th epoch i b = [].
Proof.
  intros H. unfold slm_events.
  destruct (epoch >=? joint_epoch th)%Z eqn:E; [|reflexivity].
  apply Z.geb_le in E. lia.
Qed.

Lemma slm_events_kinds cfg th epoch i b e :
  e ∈ slm_events cfg th epoch i b →
  is_slm_event e = true ∨ e = ZeroGrad ∨ is_opt_step e = true.
Proof.
  unfold slm_events. destruct (epoch >=? joint_epoch th)%Z;
    [|intros H; by apply elem_of_nil in H].
  intros H. apply elem_of_cons in H as [->|H]; [by left|].
  destruct (slmadv b i _) as [[d l]|]; [|by apply elem_of_nil in H].
  apply elem_of_app in H as [H|H].
  - repeat (apply elem_of_cons in H as [->|H]; [auto|]).
    by apply elem_of_nil in H.
  - destruct (Req_dec_T d 0); [by apply elem_of_nil in H|].
    repeat (apply elem_of_cons in H as [->|H]; [auto|]).
    by apply elem_of_nil in H.
Qed.

Lemma main_events_g_loss cfg th epoch b ls ld v :
  Backward GLoss v ∈ main_events cfg th epoch b ls ld →
  v = g_loss_of (loss_params cfg) b ls ld.
Proof.
  unfold main_events. intros H. apply elem_of_app in H as [H|H].
  - repeat (apply elem_of_cons in H as [H|H]; [by inversion H|]).
    by apply elem_of_nil in H.
  - destruct (epoch >=? diff_epoch th)%Z; [|by apply elem_of_nil in H].
    apply elem_of_cons in H as [H|H]; [discriminate|by apply elem_of_nil in H].
Qed.

(** C4: in an epoch below [diff_epoch] the denoiser block yields
    [loss_sty = 0] and [loss_diff = 0] whatever the generator state and
    the sampler would return; the step continues with these two zeros, the
    aggregated generator loss still carries both weighted terms and
    equals the sum of the other nine, and that value is what the
    generator backward of the step is run on. *)
Theorem diffusion_losses_zero_before_diff_epoch cfg th epoch i b s :
  (epoch < diff_epoch th)%Z →
  (∀ g, denoiser_training cfg th epoch b g s = Ok (0%R, 0%R, g, s)) ∧
  (aligner_raises b = false →
   train_step zero_grad optimizer_step cfg th epoch i b s
   = finish_step zero_grad optimizer_step cfg th epoch i b 0 0
                 (np_random b) s) ∧
  (let w := loss_params cfg in
   g_loss_of w b 0 0
   = (lambda_mel w * loss_mel b + lambda_F0 w * loss_F0_rec b
      + lambda_ce w * loss_ce b + lambda_norm w * loss_norm_rec b
      + lambda_dur w * loss_dur b + lambda_gen w * loss_gen_all b
      + lambda_slm w * loss_lm b + lambda_mono w * loss_mono b
      + lambda_s2s w * loss_s2s b)%R
   ∧ (lambda_sty w * 0 = 0)%R ∧ (lambda_diff w * 0 = 0)%R) ∧
  (∀ s' v, train_step zero_grad optimizer_step cfg th epoch i b s = Ok s' →
     Backward GLoss v ∈ trace s' →
     Backward GLoss v ∈ trace s ∨ v = g_loss_of (loss_params cfg) b 0 0).
Proof.
  intros Hlt.
  assert (∀ g, denoiser_training cfg th epoch b g s = Ok (0%R, 0%R, g, s)) as Hden.
  { intros g. unfold denoiser_training.
    destruct (epoch >=? diff_epoch th)%Z eqn:E; [|reflexivity].
    apply Z.geb_le in E. lia. }
  assert (aligner_raises b = false →
          train_step zero_grad optimizer_step cfg th epoch i b s
          = finish_step zero_grad optimizer_step cfg th epoch i b 0 0
                        (np_random b) s) as Hstep.
  { intros Ha. unfold train_step. rewrite Ha, Hden. reflexivity. }
  split; [exact Hden|]. split; [exact Hstep|]. split.
  - simpl. unfold g_loss_of. repeat split; ring.
  - intros s' v Hrun Hin.
    destruct (aligner_raises b) eqn:Ha.
    + unfold train_step in Hrun. rewrite Ha in Hrun.
      injection Hrun as <-. by left.
    + rewrite (Hstep eq_refl) in Hrun.
      apply finish_step_cases in Hrun as [->|(evs & Ht & Hevs & _)];
        [by left|].
      rewrite Ht in Hin. apply elem_of_app in Hin as [Hin|Hin]; [by left|].
      right. apply elem_of_app in Hin as [Hin|Hin];
        [by eapply main_events_g_loss|].
      apply elem_of_app in Hin as [Hin|Hin].
      * apply slm_events_kinds in Hin as [H|[H|H]]; discriminate.
      * rewrite Forall_forall in Hevs. apply Hevs in Hin. discriminate.
Qed.

(** C5: in an epoch from [diff_epoch] on and below [joint_epoch] the
    adversarial stage leaves the state as it is and reports two zero
    losses: a step that returns has recorded no call of the SLM stage and
    no backward of its two losses, and the gradients it leaves are those
    of the generator backward (or the untouched ones of a skipped batch):
    neither the rescale nor the amplification has run. *)
Theorem slm_stage_idle_below_joint_epoch cfg th epoch i b s :
  (diff_epoch th <= epoch)%Z →
  (epoch < joint_epoch th)%Z →
  slm_stage zero_grad optimizer_step cfg th epoch i b s = Ok (0%R, 0%R, s) ∧
  ∀ s', train_step zero_grad optimizer_step cfg th epoch i b s = Ok s' →
    (∃ evs, trace s' = trace s ++ evs
            ∧ Forall (fun e => is_slm_event e = false) evs) ∧
    (model s' = model s ∨
     model s' = autograd b GLoss (zero_grad (autograd b DLoss
                                   (zero_grad (model s))))).
Proof.
  intros _ Hlt. split; [by apply slm_stage_gated|].
  intros s' Hrun. unfold train_step in Hrun.
  destruct (aligner_raises b).
  { injection Hrun as <-. split; [|by left].
    exists []. split; [by rewrite app_nil_r|constructor]. }
  destruct (denoiser_training cfg th epoch b (np_random b) s)
    as [e|[[[ls ld] g] s1]] eqn:Hden; simpl in Hrun; [discriminate|].
  apply denoiser_training_frame in Hden as (Hm & _ & _ & Ht & _).
  apply finish_step_cases in Hrun
    as [->|(evs & Hts & Hevs & _ & _ & Hmodel)].
  - split; [|by left]. exists []. split; [by rewrite app_nil_r|constructor].
  - rewrite slm_events_gated in Hts, Hmodel by done. split.
    + eexists. split; [rewrite Hts, Ht; reflexivity|].
      apply Forall_app. split; [apply main_events_not_slm|].
      simpl. by apply add_scalar_not_slm.
    + right. rewrite (Hmodel eq_refl), Hm. done.
Qed.

(** C6: a batch whose ground-truth crops come out narrower than 80
    frames is dropped at the width check: the step returns the state the
    denoiser block left, with no collaborator call recorded (no
    [zero_grad], no backward, no optimizer step), the same iteration
    counter, the same gradients and the same optimizer options. *)
Theorem narrow_crop_skips_step cfg th epoch i b s ls ld g s1 mel_len offsets width :
  aligner_raises b = false →
  denoiser_training cfg th epoch b (np_random b) s = Ok (ls, ld, g, s1) →
  crop_segments cfg b g = Ok (mel_len, offsets, width) →
  (width < 80)%Z →
  train_step zero_grad optimizer_step cfg th epoch i b s = Ok s1
  ∧ trace s1 = trace s
  ∧ filter (fun e => is_opt_step e = true) (trace s1)
    = filter (fun e => is_opt_step e = true) (trace s)
  ∧ iters s1 = iters s
  ∧ model s1 = model s
  ∧ optimizers s1 = optimizers s.
Proof.
  intros Ha Hden Hcrop Hw.
  pose proof (denoiser_training_frame _ _ _ _ _ _ _ _ _ _ Hden)
    as (Hm & Ho & Hi & Ht & _).
  split; [|rewrite Ht; auto].
  unfold train_step. rewrite Ha, Hden. simpl.
  unfold finish_step. rewrite Hcrop. simpl.
  by rewrite (proj2 (Z.ltb_lt width 80) Hw).
Qed.

End WithCollaborators.

Lemma diffusion_losses_zero_before_diff_epoch_witness :
  denoiser_training ex_cfg ex_th 3 ex_batch (np_random ex_batch) ex_state
  = Ok (0%R, 0%R, np_random ex_batch, ex_state).
Proof.
  apply (diffusion_losses_zero_before_diff_epoch ex_zero_grad ex_optimizer_step
           ex_cfg ex_th 3 0 ex_batch ex_state).
  reflexivity.
Defined.

Lemma slm_stage_idle_below_joint_epoch_witness :
  slm_stage ex_zero_grad ex_optimizer_step ex_cfg ex_th 20 0 ex_batch ex_state
  = Ok (0%R, 0%R, ex_state).
Proof.
  apply (slm_stage_idle_below_joint_epoch ex_zero_grad ex_optimizer_step
           ex_cfg ex_th 20 0 ex_batch ex_state).
  - vm_compute. discriminate.
  - reflexivity.
Defined.

Lemma narrow_crop_skips_step_witness :
  ∃ s1, train_step ex_zero_grad ex_optimizer_step ex_cfg ex_th 20 0
                   ex_short_batch ex_state = Ok s1
        ∧ trace s1 = trace ex_state ∧ iters s1 = iters ex_state.
Proof.
  edestruct (narrow_crop_skips_step ex_zero_grad ex_optimizer_step ex_cfg
               ex_th 20 0 ex_short_batch ex_state)
    as (Hrun & Ht & _ & Hi & _).
  - reflexivity.
  - reflexivity.
  - reflexivity.
  - reflexivity.
  - eexists. split; [exact Hrun|]. split; [exact Ht|exact Hi].
Defined.

(** C10: when the shortest utterance of the batch has at least 2 valid
    frames, both crop lengths ([floor(min / 2) - 1], and its minimum with
    [max_len // 2]) lie strictly below the half length of every
    utterance, so each of the two draws per utterance gets a non-empty
    range: the sampling loop returns an offset pair for every utterance,
    each inside its range, and raises nothing. *)
Theorem crop_offsets_well_defined (max_len mn : Z) (lens : list Z) (g : Rng) :
  tensor_min lens = Ok mn →
  (2 <= mn)%Z →
  mel_len_st_of mn = (mn `div` 2 - 1)%Z ∧
  mel_len_of max_len mn = Z.min (mn `div` 2 - 1) (max_len `div` 2) ∧
  (∀ len, len ∈ lens →
     (mel_len_of max_len mn < int_trunc (inject_Z len / 2))%Z ∧
     (mel_len_st_of mn < int_trunc (inject_Z len / 2))%Z) ∧
  ∃ offsets g',
    sample_segments (mel_len_of max_len mn) (mel_len_st_of mn) lens g
    = Ok (offsets, g')
    ∧ Forall2 (offsets_in_range (mel_len_of max_len mn) (mel_len_st_of mn))
              lens offsets.
Proof.
  intros Hmin H2.
  assert (∀ len, len ∈ lens →
     (mel_len_of max_len mn < int_trunc (inject_Z len / 2))%Z ∧
     (mel_len_st_of mn < int_trunc (inject_Z len / 2))%Z) as Hall.
  { intros len Hlen.
    pose proof (tensor_min_le lens mn Hmin len Hlen) as Hle.
    pose proof (half_above_crop mn len H2 Hle).
    pose proof (mel_len_le_st max_len mn). lia. }
  split; [by apply mel_len_st_floor|]. split.
  - unfold mel_len_of. fold (mel_len_st_of mn). by rewrite mel_len_st_floor.
  - split; [exact Hall|]. by apply sample_segments_ok.
Qed.

Lemma crop_offsets_well_defined_witness :
  ∃ offsets g',
    sample_segments (mel_len_of 400 2) (mel_len_st_of 2) [200; 2; 163]%Z
                    (fun n => Z.of_nat n * 7)%Z
    = Ok (offsets, g').
Proof.
  destruct (crop_offsets_well_defined 400 2 [200; 2; 163]%Z
              (fun n => Z.of_nat n * 7)%Z)
    as (_ & _ & _ & offsets & g' & Hrun & _).
  - reflexivity.
  - lia.
  - exists offsets, g'. exact Hrun.
Defined.

(** With fewer than 2 valid frames in the shortest utterance the first
    draw already has an empty range. *)
Lemma crop_raises_on_one_frame :
  sample_segments (mel_len_of 400 1) (mel_len_st_of 1) [1]%Z (fun _ => 0%Z)
  = Raise ValueError.
Proof. reflexivity. Qed.

End StepClaims.

(** ** The epoch: validation metrics, checkpoint, loop invariants *)

Module EpochFacts.
Import Py Grad Optim Train Observe StepFacts StepClaims.

Lemma rdiv_ok (a : R) (n : Z) : n ≠ 0%Z → rdiv a n = Ok (a / IZR n)%R.
Proof.
  intros H. unfold rdiv. by rewrite (proj2 (Z.eqb_neq n 0) H).
Qed.

Lemma rdiv_inv (a : R) (n : Z) (x : R) :
  rdiv a n = Ok x → n ≠ 0%Z ∧ x = (a / IZR n)%R.
Proof.
  unfold rdiv. destruct (n =? 0)%Z eqn:E; [discriminate|].
  intros [= <-]. by apply Z.eqb_neq in E.
Qed.

(** The three validation scalars, as written. *)
Lemma log_validation_ok (epoch : Z) (acc : ValAcc) (s : TrainState) :
  iters_test acc ≠ 0%Z →
  log_validation epoch acc s
  = Ok (emit [ AddScalar "eval/mel_loss"
                 (loss_test acc / IZR (iters_test acc)) (epoch + 1);
               AddScalar "eval/dur_loss"
                 (loss_test acc / IZR (iters_test acc)) (epoch + 1);
               AddScalar "eval/F0_loss"
                 (loss_f acc / IZR (iters_test acc)) (epoch + 1) ] s).
Proof.
  intros H. unfold log_validation. by rewrite !rdiv_ok.
Qed.

Lemma log_validation_inv (epoch : Z) (acc : ValAcc) (s s' : TrainState) :
  log_validation epoch acc s = Ok s' → iters_test acc ≠ 0%Z.
Proof.
  unfold log_validation.
  destruct (rdiv (loss_test acc) (iters_test acc)) eqn:E; [discriminate|].
  intros _. by apply rdiv_inv in E as [? _].
Qed.


Section WithCollaborators.
Variable zero_grad : gmap string Unit → gmap string Unit.
Variable optimizer_step : string → Optimizers → Optimizers.

(** The accumulated validation losses do not depend on the loop state. *)
Lemma validate_acc vs acc s s0 :
  (validate zero_grad vs acc s).1 = (validate zero_grad vs acc s0).1.
Proof.
  revert acc s s0. induction vs as [|v vs IH]; intros acc s s0; simpl; [done|].
  destruct v as [l|]; apply IH.
Qed.







(** What a returning epoch went through. *)
Lemma run_epoch_inv cfg th data epoch s s' :
  run_epoch zero_grad optimizer_step cfg th data epoch s = Ok s' →
  ∃ s_tr acc s_val s_log,
    train_batches zero_grad optimizer_step cfg th epoch 0 (train_data data epoch)
                  (set_running_loss 0 s) = Ok s_tr
    ∧ validate zero_grad (val_data data epoch) (mkValAcc 0 0 0 0) s_tr
      = (acc, s_val)
    ∧ log_validation epoch acc s_val = Ok s_log
    ∧ save_checkpoint cfg epoch acc s_log = Ok s'.
Proof.
  unfold run_epoch.
  destruct (train_batches _ _ _ _ _ _ _) as [e|s_tr]; simpl; [discriminate|].
  destruct (validate _ _ _ _) as [acc s_val] eqn:Hv.
  destruct (log_validation epoch acc s_val) as [e|s_log] eqn:Hl; simpl;
    [discriminate|].
  intros H. by exists s_tr, acc, s_val, s_log.
Qed.




End WithCollaborators.


End EpochFacts.

(** ** Startup: thresholds, optimizer overrides, restore *)

Module StartupFacts.
Import Py Grad Optim Train EpochFacts.

Lemma adjust_bert_options (bert_lr : Q) (g : ParamGroup) :
  bert_options bert_lr (adjust_bert bert_lr g).
Proof. unfold bert_options, adjust_bert. repeat split; by simplify_map_eq. Qed.

Lemma adjust_acoustic_options (ft_lr : Q) (g : ParamGroup) :
  acoustic_options ft_lr (adjust_acoustic ft_lr g).
Proof.
  unfold acoustic_options, adjust_acoustic. repeat split; by simplify_map_eq.
Qed.

(** Options outside the five written ones keep their value. *)
Lemma adjust_bert_other (bert_lr : Q) (g : ParamGroup) (k : string) :
  k ∉ overridden_options → adjust_bert bert_lr g !! k = g !! k.
Proof.
  unfold overridden_options, adjust_bert. intros H.
  rewrite !lookup_insert_ne; [done|..]; intros <-; apply H;
    repeat (apply elem_of_cons; first [left; reflexivity | right]).
Qed.

Lemma adjust_acoustic_other (ft_lr : Q) (g : ParamGroup) (k : string) :
  k ∉ overridden_options → adjust_acoustic ft_lr g !! k = g !! k.
Proof.
  unfold overridden_options, adjust_acoustic. intros H.
  rewrite !lookup_insert_ne; [done|..]; intros <-; apply H;
    repeat (apply elem_of_cons; first [left; reflexivity | right]).
Qed.

Lemma adjust_unit_ok (f : ParamGroup → ParamGroup) (key : string)
  (opt : Optimizers) (gs : list ParamGroup) :
  opt !! key = Some gs → adjust_unit f key opt = Ok (<[key := map f gs]> opt).
Proof. intros H. unfold adjust_unit, getitem. by rewrite H. Qed.

Lemma adjust_learning_rates_ok (bert_lr ft_lr : Q) (opt : Optimizers)
  (gb gd gs : list ParamGroup) :
  opt !! "bert"%string = Some gb →
  opt !! "decoder"%string = Some gd →
  opt !! "style_encoder"%string = Some gs →
  adjust_learning_rates bert_lr ft_lr opt
  = Ok (<["style_encoder"%string := map (adjust_acoustic ft_lr) gs]>
        (<["decoder"%string := map (adjust_acoustic ft_lr) gd]>
         (<["bert"%string := map (adjust_bert bert_lr) gb]> opt))).
Proof.
  intros Hb Hd Hs. unfold adjust_learning_rates.
  rewrite (adjust_unit_ok _ _ _ gb Hb). simpl.
  rewrite (adjust_unit_ok _ "decoder" _ gd); [|by rewrite lookup_insert_ne].
  simpl. rewrite (adjust_unit_ok _ "style_encoder" _ gs); [done|].
  by rewrite !lookup_insert_ne.
Qed.

Lemma Forall_map_all {A B} (P : B → Prop) (f : A → B) (l : list A) :
  (∀ x, P (f x)) → Forall P (map f l).
Proof. intros H. induction l; simpl; constructor; auto. Qed.

Lemma adjust_learning_rates_overrides (bert_lr ft_lr : Q) (opt : Optimizers) :
  has_finetuned_units opt →
  ∃ opt1, adjust_learning_rates bert_lr ft_lr opt = Ok opt1
          ∧ overrides_hold bert_lr ft_lr opt opt1.
Proof.
  intros ([gb Hb] & [gd Hd] & [gs Hs]).
  eexists. split; [by apply adjust_learning_rates_ok|].
  unfold overrides_hold. repeat split.
  - exists (map (adjust_bert bert_lr) gb). split.
    + do 2 (rewrite lookup_insert_ne by done). by rewrite lookup_insert_eq.
    + apply Forall_map_all, adjust_bert_options.
  - exists (map (adjust_acoustic ft_lr) gd). split.
    + rewrite lookup_insert_ne by done. by rewrite lookup_insert_eq.
    + apply Forall_map_all, adjust_acoustic_options.
  - exists (map (adjust_acoustic ft_lr) gs). split.
    + by rewrite lookup_insert_eq.
    + apply Forall_map_all, adjust_acoustic_options.
  - intros key H1 H2 H3. by rewrite !lookup_insert_ne by done.
Qed.

Lemma set_unit_max_lr_ok (key : string) (v : Q)
  (d : gmap string SchedulerParams) :
  is_Some (d !! key) →
  ∃ d', set_unit_max_lr key v d = Ok d' ∧ ∀ k, is_Some (d !! k) → is_Some (d' !! k).
Proof.
  intros [p Hp]. unfold set_unit_max_lr, getitem. rewrite Hp. simpl.
  eexists. split; [reflexivity|]. intros k Hk.
  destruct (decide (key = k)) as [->|Hne].
  - rewrite lookup_insert_eq. by eexists.
  - by rewrite lookup_insert_ne.
Qed.

Lemma scheduler_params_dict_ok cfg th (model : gmap string Unit) :
  has_finetuned_units model →
  ∃ d, scheduler_params_dict_of cfg th model = Ok d.
Proof.
  intros (Hb & Hd & Hs). unfold scheduler_params_dict_of.
  set (d0 := (fun _ => _) <$> model).
  assert (∀ k, is_Some (model !! k) → is_Some (d0 !! k)) as H0.
  { intros k [u Hu]. unfold d0. rewrite lookup_fmap, Hu. by eexists. }
  destruct (set_unit_max_lr_ok "bert" (bert_lr cfg * 2) d0) as (d1 & -> & H1);
    [auto|]. simpl.
  destruct (set_unit_max_lr_ok "decoder" (ft_lr cfg * 2) d1) as (d2 & -> & H2);
    [auto|]. simpl.
  destruct (set_unit_max_lr_ok "style_encoder" (ft_lr cfg * 2) d2)
    as (d3 & -> & H3); [auto|]. by eexists.
Qed.



Section WithCollaborators.
Variable load_checkpoint :
  gmap string Unit → option Optimizers → string → bool → list string →
  gmap string Unit * option Optimizers * Z * Z.
Variable build_optimizer :
  gmap string Unit → gmap string SchedulerParams → Q → Optimizers.

Lemma load_first_stage_ok cfg (model m : gmap string Unit) o se it :
  load_pretrained_of cfg = false →
  first_stage_path cfg ≠ ""%string →
  load_checkpoint model None (path_join (log_dir cfg) (first_stage_path cfg))
                  true first_stage_ignore_modules = (m, o, se, it) →
  is_Some (m !! "style_encoder"%string) →
  ∃ style, m !! "style_encoder"%string = Some style ∧
    load_first_stage load_checkpoint cfg model
    = Ok (<["predictor_encoder"%string := style]> m, se, it,
          mkThresholds (cfg_diff_epoch cfg + se) (cfg_joint_epoch cfg + se)
                       (cfg_epochs cfg + se)).
Proof.
  intros Hlp Hpath Hload [style Hstyle]. exists style. split; [done|].
  unfold load_first_stage. rewrite Hlp. simpl.
  destruct (String.eqb (first_stage_path cfg) "") eqn:E.
  { apply String.eqb_eq in E. contradiction. }
  simpl. rewrite Hload. unfold getattr. rewrite Hstyle. reflexivity.
Qed.

Lemma load_first_stage_pretrained cfg (model : gmap string Unit) :
  load_pretrained_of cfg = true →
  load_first_stage load_checkpoint cfg model
  = Ok (model, 0%Z, 0%Z,
        mkThresholds (cfg_diff_epoch cfg) (cfg_joint_epoch cfg) (cfg_epochs cfg)).
Proof. intros H. unfold load_first_stage. by rewrite H. Qed.

(** What a first-stage branch that returns went through. *)
Lemma load_first_stage_inv cfg (model m : gmap string Unit) se it th :
  load_pretrained_of cfg = false →
  load_first_stage load_checkpoint cfg model = Ok (m, se, it, th) →
  ∃ m0 o style,
    load_checkpoint model None (path_join (log_dir cfg) (first_stage_path cfg))
                    true first_stage_ignore_modules = (m0, o, se, it)
    ∧ first_stage_path cfg ≠ ""%string
    ∧ m0 !! "style_encoder"%string = Some style
    ∧ m = <["predictor_encoder"%string := style]> m0
    ∧ th = mkThresholds (cfg_diff_epoch cfg + se) (cfg_joint_epoch cfg + se)
                        (cfg_epochs cfg + se).
Proof.
  intros Hlp. unfold load_first_stage. rewrite Hlp. simpl.
  destruct (String.eqb (first_stage_path cfg) "") eqn:Hp; simpl; [discriminate|].
  destruct (load_checkpoint model None _ true first_stage_ignore_modules)
    as [[[m0 o] se0] it0] eqn:Hload.
  unfold getattr. destruct (m0 !! "style_encoder"%string) as [style|] eqn:Hs;
    simpl; [|discriminate].
  intros [= <- <- <- <-]. exists m0, o, style.
  repeat split; try done. intros E. rewrite E in Hp. discriminate.
Qed.

Lemma build_losses_ok (m : gmap string Unit) :
  has_loss_units m → build_losses m = Ok ().
Proof.
  intros ([? H1] & [? H2] & [? H3] & [? H4]). unfold build_losses, getattr.
  by rewrite H1, H2, H3, H4.
Qed.

(** The losses are only built on a registry that holds the two
    discriminators, the critic and the diffusion unit. *)
Lemma build_losses_inv (m : gmap string Unit) (u : ()) :
  build_losses m = Ok u → has_loss_units m.
Proof.
  unfold build_losses, getattr.
  destruct (m !! "mpd"%string) eqn:H1; simpl; [|discriminate].
  destruct (m !! "msd"%string) eqn:H2; simpl; [|discriminate].
  destruct (m !! "wd"%string) eqn:H3; simpl; [|discriminate].
  destruct (m !! "diffusion"%string) eqn:H4; simpl; [|discriminate].
  intros _. repeat split; by eexists.
Qed.

Lemma has_loss_units_insert {A} (d : gmap string A) (key : string) (v : A) :
  has_loss_units d → has_loss_units (<[key := v]> d).
Proof.
  intros (H1 & H2 & H3 & H4).
  repeat split; (apply lookup_insert_is_Some'; by right).
Qed.

(** What [startup] returns once the registry, the optimizer and the epoch
    the loop is to start with are known. *)
Lemma startup_ok cfg model m se it th d opt1 m' o' se' it' :
  load_first_stage load_checkpoint cfg model = Ok (m, se, it, th) →
  has_loss_units m →
  scheduler_params_dict_of cfg th m = Ok d →
  adjust_learning_rates (bert_lr cfg) (ft_lr cfg)
                        (build_optimizer m d (opt_lr cfg)) = Ok opt1 →
  (if load_pretrained_of cfg
   then load_checkpoint m (Some opt1) (pretrained_model cfg)
                        (load_only_params cfg) []
   else (m, Some opt1, se, it)) = (m', Some o', se', it') →
  is_Some (m' !! "text_aligner"%string) →
  is_Some (o' !! "bert"%string) →
  is_Some (o' !! "decoder"%string) →
  startup load_checkpoint build_optimizer cfg model
  = Ok (mkStartup m' o' se' 0 th).
Proof.
  intros Hfirst Hloss Hd Hadj Hrestore [? Hta] [? Hb] [? Hdec].
  unfold startup. rewrite Hfirst. cbn [mbind result_bind].
  rewrite (build_losses_ok m Hloss). cbn [mbind result_bind].
  rewrite Hd. cbn [mbind result_bind]. rewrite Hadj. cbn [mbind result_bind].
  rewrite Hrestore. unfold getattr, getitem.
  rewrite Hta. cbn [mbind result_bind].
  rewrite Hb. cbn [mbind result_bind]. by rewrite Hdec.
Qed.

(** What a startup that returns went through; the iteration counter the
    loop starts with is the constant of line 182, on every path. *)
Lemma startup_inv cfg model su :
  startup load_checkpoint build_optimizer cfg model = Ok su →
  su_iters su = 0%Z ∧
  ∃ m se it d opt1 it',
    load_first_stage load_checkpoint cfg model
    = Ok (m, se, it, su_thresholds su)
    ∧ has_loss_units m
    ∧ scheduler_params_dict_of cfg (su_thresholds su) m = Ok d
    ∧ adjust_learning_rates (bert_lr cfg) (ft_lr cfg)
                            (build_optimizer m d (opt_lr cfg)) = Ok opt1
    ∧ (if load_pretrained_of cfg
       then load_checkpoint m (Some opt1) (pretrained_model cfg)
                            (load_only_params cfg) []
       else (m, Some opt1, se, it))
      = (su_model su, Some (su_optimizer su), start_epoch su, it')
    ∧ is_Some (su_model su !! "text_aligner"%string)
    ∧ is_Some (su_optimizer su !! "bert"%string)
    ∧ is_Some (su_optimizer su !! "decoder"%string).
Proof.
  unfold startup.
  destruct (load_first_stage load_checkpoint cfg model)
    as [e|[[[m se] it] th]]; cbn [mbind result_bind]; [discriminate|].
  destruct (build_losses m) as [e|u] eqn:Hloss; cbn [mbind result_bind];
    [discriminate|].
  apply build_losses_inv in Hloss.
  destruct (scheduler_params_dict_of cfg th m) as [e|d] eqn:Hd;
    cbn [mbind result_bind]; [discriminate|].
  destruct (adjust_learning_rates _ _ _) as [e|opt1] eqn:Hadj;
    cbn [mbind result_bind]; [discriminate|].
  destruct (if load_pretrained_of cfg then _ else _)
    as [[[m' o'] se'] it'] eqn:Hrestore.
  unfold getattr, getitem.
  destruct (m' !! "text_aligner"%string) eqn:Hta; cbn [mbind result_bind];
    [|discriminate].
  destruct o' as [o'|]; cbn [mbind result_bind]; [|discriminate].
  destruct (o' !! "bert"%string) eqn:Hb; cbn [mbind result_bind];
    [|discriminate].
  destruct (o' !! "decoder"%string) eqn:Hdec; cbn [mbind result_bind];
    [|discriminate].
  intros [= <-]. split; [done|]. exists m, se, it, d, opt1, it'.
  cbn [su_thresholds su_model su_optimizer start_epoch].
  do 5 (split; [done|]). repeat split; by eexists.
Qed.

End WithCollaborators.
End StartupFacts.

(** ** Claims on the startup sequence *)

Module StartupClaims.
Import Py Grad Optim Train Observe StepFacts EpochFacts StartupFacts
       Examples MoreExamples.

Lemma has_finetuned_units_insert {A} (d : gmap string A) (key : string) (v : A) :
  has_finetuned_units d → has_finetuned_units (<[key := v]> d).
Proof.
  intros (H1 & H2 & H3).
  repeat split; (apply lookup_insert_is_Some'; by right).
Qed.

Lemma ex_model_finetuned : has_finetuned_units ex_model.
Proof. repeat split; by eexists. Qed.

Lemma ex_registry_finetuned : has_finetuned_units ex_registry.
Proof. repeat split; by eexists. Qed.

Lemma ex_registry_loss_units : has_loss_units ex_registry.
Proof. repeat split; by eexists. Qed.

Lemma ex_build_optimizer_covers : covers_finetuned_units ex_build_optimizer.
Proof.
  intros params d lr ([b Hb] & [c Hc] & [e He]). unfold ex_build_optimizer.
  repeat split; rewrite lookup_fmap; [rewrite Hb|rewrite Hc|rewrite He];
    by eexists.
Qed.


Section WithCollaborators.
Variable zero_grad : gmap string Unit → gmap string Unit.
Variable optimizer_step : string → Optimizers → Optimizers.
Variable load_checkpoint :
  gmap string Unit → option Optimizers → string → bool → list string →
  gmap string Unit * option Optimizers * Z * Z.
Variable build_optimizer :
  gmap string Unit → gmap string SchedulerParams → Q → Optimizers.

(** C7: on the first-stage path the three thresholds are moved once, at
    startup, by the epoch the checkpoint loader hands back for the file
    [os.path.join(log_dir, first_stage_path)]; a configured [diff_epoch]
    of 10 and a restored start epoch of 5 give 15, and [joint_epoch] and
    [epochs] move by the same 5.  Startup returns when the loaded registry
    holds the units the script reads by name. *)
Theorem first_stage_resume_offsets_thresholds cfg model m o se it :
  load_pretrained_of cfg = false →
  first_stage_path cfg ≠ ""%string →
  load_checkpoint model None (path_join (log_dir cfg) (first_stage_path cfg))
                  true first_stage_ignore_modules = (m, o, se, it) →
  has_finetuned_units m →
  has_loss_units m →
  is_Some (m !! "text_aligner"%string) →
  covers_finetuned_units build_optimizer →
  ∃ su, startup load_checkpoint build_optimizer cfg model = Ok su
    ∧ start_epoch su = se
    ∧ su_thresholds su
      = mkThresholds (cfg_diff_epoch cfg + se) (cfg_joint_epoch cfg + se)
                     (cfg_epochs cfg + se)
    ∧ (cfg_diff_epoch cfg = 10%Z → se = 5%Z →
       diff_epoch (su_thresholds su) = 15%Z).
Proof.
  intros Hlp Hpath Hload Hunits Hloss Hta Hcov.
  destruct (load_first_stage_ok load_checkpoint cfg model m o se it
              Hlp Hpath Hload) as (style & Hstyle & Hfirst);
    [apply Hunits|].
  set (m' := <["predictor_encoder"%string := style]> m) in *.
  set (th := mkThresholds _ _ _) in *.
  assert (has_finetuned_units m') as Hm'
    by (by apply has_finetuned_units_insert).
  destruct (scheduler_params_dict_ok cfg th m' Hm') as (d & Hd).
  destruct (adjust_learning_rates_overrides (bert_lr cfg) (ft_lr cfg)
              (build_optimizer m' d (opt_lr cfg)))
    as (opt1 & Hadj & (gb & Hgb & _) & (gd & Hgd & _) & _);
    [by apply Hcov|].
  exists (mkStartup m' opt1 se 0 th). split.
  - eapply startup_ok; [exact Hfirst| |exact Hd|exact Hadj| | | |].
    + by apply has_loss_units_insert.
    + rewrite Hlp. reflexivity.
    + apply lookup_insert_is_Some'. by right.
    + by eexists.
    + by eexists.
  - cbn [start_epoch su_thresholds]. repeat split.
    intros H10 H5. subst th. cbn [diff_epoch]. lia.
Qed.


End WithCollaborators.

Lemma first_stage_resume_offsets_thresholds_witness :
  path_join (log_dir ex_cfg) (first_stage_path ex_cfg)
  = "Models/LJSpeech/first_stage.pth"%string
  ∧ ∃ su, startup ex_first_stage_at ex_build_optimizer ex_cfg ex_registry = Ok su
      ∧ start_epoch su = 5%Z
      ∧ diff_epoch (su_thresholds su) = 15%Z.
Proof.
  split; [reflexivity|].
  destruct (first_stage_resume_offsets_thresholds ex_first_stage_at
              ex_build_optimizer ex_cfg ex_registry ex_registry None 5%Z 1234%Z)
    as (su & Hrun & Hse & _ & Hdiff).
  - reflexivity.
  - discriminate.
  - reflexivity.
  - exact ex_registry_finetuned.
  - exact ex_registry_loss_units.
  - by eexists.
  - exact ex_build_optimizer_covers.
  - exists su. split; [exact Hrun|]. split; [exact Hse|].
    apply Hdiff; reflexivity.
Defined.

(** C2: on the restore path ([load_pretrained], any [load_only_params])
    the loop receives the optimizer and the epoch the checkpoint loader
    hands back, but not the iteration counter: whatever count [it] was
    saved and restored, line 182 sets the counter to 0 before the loop
    starts.  Startup gets that far when the registry holds the units the
    losses, the sampler and the schedules are built on, the restored
    registry the aligner, and the restored optimizer the two units that
    are printed. *)
Theorem restore_discards_saved_iteration_counter
  (load_checkpoint : gmap string Unit → option Optimizers → string → bool →
                     list string → gmap string Unit * option Optimizers * Z * Z)
  (build_optimizer : gmap string Unit → gmap string SchedulerParams → Q → Optimizers)
  (cfg : Config) (model : gmap string Unit) :
  load_pretrained_of cfg = true →
  has_finetuned_units model →
  has_loss_units model →
  covers_finetuned_units build_optimizer →
  ∃ opt1,
    (∃ d, adjust_learning_rates (bert_lr cfg) (ft_lr cfg)
            (build_optimizer model d (opt_lr cfg)) = Ok opt1) ∧
    ∀ m o se it,
      load_checkpoint model (Some opt1) (pretrained_model cfg)
                      (load_only_params cfg) [] = (m, Some o, se, it) →
      is_Some (m !! "text_aligner"%string) →
      is_Some (o !! "bert"%string) →
      is_Some (o !! "decoder"%string) →
      ∃ su, startup load_checkpoint build_optimizer cfg model = Ok su
        ∧ su_optimizer su = o
        ∧ start_epoch su = se
        ∧ su_iters su = 0%Z
        ∧ iters (initial_state su) = 0%Z.
Proof.
  intros Hlp Hunits Hloss Hcov.
  set (th := mkThresholds (cfg_diff_epoch cfg) (cfg_joint_epoch cfg)
                          (cfg_epochs cfg)).
  destruct (scheduler_params_dict_ok cfg th model Hunits) as (d & Hd).
  destruct (adjust_learning_rates_overrides (bert_lr cfg) (ft_lr cfg)
              (build_optimizer model d (opt_lr cfg))) as (opt1 & Hadj & _);
    [by apply Hcov|].
  exists opt1. split; [by exists d|].
  intros m o se it Hload Hta Hb Hdec.
  exists (mkStartup m o se 0 th). split; [|done].
  eapply startup_ok;
    [by apply load_first_stage_pretrained|exact Hloss|exact Hd|exact Hadj
    | |exact Hta|exact Hb|exact Hdec].
  rewrite Hlp. exact Hload.
Qed.

Lemma restore_discards_saved_iteration_counter_witness :
  ck_iters ex_registry_checkpoint = 7%Z ∧
  ∃ su, startup (load_checkpoint_spec (fun _ => ex_registry_checkpoint))
                ex_build_optimizer ex_cfg_resume ex_registry = Ok su
    ∧ su_optimizer su = ck_optimizer ex_registry_checkpoint
    ∧ start_epoch su = ck_epoch ex_registry_checkpoint
    ∧ su_iters su = 0%Z.
Proof.
  split; [reflexivity|].
  destruct (restore_discards_saved_iteration_counter
              (load_checkpoint_spec (fun _ => ex_registry_checkpoint))
              ex_build_optimizer ex_cfg_resume ex_registry)
    as (opt1 & _ & Hall).
  - reflexivity.
  - exact ex_registry_finetuned.
  - exact ex_registry_loss_units.
  - exact ex_build_optimizer_covers.
  - edestruct Hall as (su & Hrun & Hopt & Hse & Hit & _);
      [reflexivity|by eexists|by eexists|by eexists|].
    exists su. split; [exact Hrun|]. split; [exact Hopt|].
    split; [exact Hse|exact Hit].
Defined.




End StartupClaims.

(** ** More on the startup sequence *)

Module StartupMore.
Import Py Grad Optim Train EpochFacts StartupFacts Examples MoreExamples.

Section WithCollaborators.
Variable zero_grad : gmap string Unit → gmap string Unit.
Variable optimizer_step : string → Optimizers → Optimizers.
Variable load_checkpoint :
  gmap string Unit → option Optimizers → string → bool → list string →
  gmap string Unit * option Optimizers * Z * Z.
Variable build_optimizer :
  gmap string Unit → gmap string SchedulerParams → Q → Optimizers.

(** What a successful startup on the first-stage path went through. *)
Lemma startup_first_stage_inv cfg model su :
  load_pretrained_of cfg = false →
  startup load_checkpoint build_optimizer cfg model = Ok su →
  ∃ m o se it style,
    load_checkpoint model None (path_join (log_dir cfg) (first_stage_path cfg))
                    true first_stage_ignore_modules = (m, o, se, it)
    ∧ first_stage_path cfg ≠ ""%string
    ∧ m !! "style_encoder"%string = Some style
    ∧ su_model su = <["predictor_encoder"%string := style]> m
    ∧ start_epoch su = se
    ∧ su_thresholds su
      = mkThresholds (cfg_diff_epoch cfg + se) (cfg_joint_epoch cfg + se)
                     (cfg_epochs cfg + se).
Proof.
  intros Hlp Hsu.
  destruct (startup_inv _ _ _ _ _ Hsu)
    as (_ & m & se & it & d & opt1 & it' & Hfirst & _ & _ & _ & Hrestore & _).
  rewrite Hlp in Hrestore. injection Hrestore as Hm _ Hse _.
  apply load_first_stage_inv in Hfirst
    as (m0 & o & style & Hload & Hp & Hs & Hm0 & Hth); [|done].
  exists m0, o, se, it, style. rewrite <- Hm, <- Hse. by repeat split.
Qed.

(** X1: with nothing to restore and no first-stage path configured,
    startup stops with [ValueError], whatever the registry and the
    collaborators are; so does [main]. *)
Theorem startup_requires_first_stage cfg model data :
  load_pretrained_of cfg = false →
  first_stage_path cfg = ""%string →
  startup load_checkpoint build_optimizer cfg model = Raise ValueError
  ∧ main zero_grad optimizer_step load_checkpoint build_optimizer cfg model data
    = Raise ValueError.
Proof.
  intros Hlp Hp.
  assert (startup load_checkpoint build_optimizer cfg model = Raise ValueError)
    as H.
  { unfold startup, load_first_stage. rewrite Hlp, Hp. reflexivity. }
  split; [exact H|]. unfold main. by rewrite H.
Qed.

(** X2: a run that restores a second-stage checkpoint keeps the
    configured thresholds as they are, although it starts at the restored
    epoch: it trains [epochs - start_epoch] epochs (none when the restored
    epoch has reached [epochs]), and the diffusion and adversarial stages
    open at the configured epochs. *)
Theorem restore_keeps_configured_thresholds cfg model data su :
  load_pretrained_of cfg = true →
  startup load_checkpoint build_optimizer cfg model = Ok su →
  su_thresholds su
  = mkThresholds (cfg_diff_epoch cfg) (cfg_joint_epoch cfg) (cfg_epochs cfg)
  ∧ main zero_grad optimizer_step load_checkpoint build_optimizer cfg model data
    = run_epochs zero_grad optimizer_step cfg (su_thresholds su) data
        (Z.to_nat (cfg_epochs cfg - start_epoch su)) (start_epoch su)
        (initial_state su)
  ∧ (cfg_epochs cfg <= start_epoch su →
     main zero_grad optimizer_step load_checkpoint build_optimizer cfg model data
     = Ok (initial_state su))%Z.
Proof.
  intros Hlp Hsu.
  assert (su_thresholds su
          = mkThresholds (cfg_diff_epoch cfg) (cfg_joint_epoch cfg)
                         (cfg_epochs cfg)) as Hth.
  { destruct (startup_inv _ _ _ _ _ Hsu)
      as (_ & m & se & it & d & opt1 & it' & Hfirst & _).
    rewrite load_first_stage_pretrained in Hfirst by done.
    by injection Hfirst. }
  assert (main zero_grad optimizer_step load_checkpoint build_optimizer cfg model data
          = run_epochs zero_grad optimizer_step cfg (su_thresholds su) data
              (Z.to_nat (cfg_epochs cfg - start_epoch su)) (start_epoch su)
              (initial_state su)) as Hmain.
  { unfold main. rewrite Hsu. simpl. unfold training_loop. by rewrite Hth. }
  split; [exact Hth|]. split; [exact Hmain|].
  intros Hle. rewrite Hmain.
  replace (Z.to_nat (cfg_epochs cfg - start_epoch su)) with 0%nat by lia.
  reflexivity.
Qed.

(** X3: on the first-stage path the shift of [epochs] cancels against
    the start epoch: the loop runs exactly the configured number of epochs,
    counted from the restored epoch. *)
Theorem first_stage_runs_configured_epochs cfg model data su :
  load_pretrained_of cfg = false →
  startup load_checkpoint build_optimizer cfg model = Ok su →
  (epochs (su_thresholds su) - start_epoch su = cfg_epochs cfg)%Z
  ∧ main zero_grad optimizer_step load_checkpoint build_optimizer cfg model data
    = run_epochs zero_grad optimizer_step cfg (su_thresholds su) data
        (Z.to_nat (cfg_epochs cfg)) (start_epoch su) (initial_state su).
Proof.
  intros Hlp Hsu.
  destruct (startup_first_stage_inv cfg model su Hlp Hsu)
    as (m & o & se & it & style & _ & _ & _ & _ & Hse & Hth).
  assert (epochs (su_thresholds su) - start_epoch su = cfg_epochs cfg)%Z as He.
  { rewrite Hth, Hse. simpl. lia. }
  split; [exact He|].
  unfold main. rewrite Hsu. simpl. unfold training_loop. by rewrite He.
Qed.

(** X4: on the first-stage path the registry the loop starts with is
    the one loaded from [os.path.join(log_dir, first_stage_path)], with
    ["predictor_encoder"] replaced by the loaded ["style_encoder"]; every
    other unit is as loaded. *)
Theorem first_stage_copies_style_encoder cfg model su m o se it :
  load_pretrained_of cfg = false →
  startup load_checkpoint build_optimizer cfg model = Ok su →
  load_checkpoint model None (path_join (log_dir cfg) (first_stage_path cfg))
                  true first_stage_ignore_modules = (m, o, se, it) →
  Train.model (initial_state su) !! "predictor_encoder"%string
  = m !! "style_encoder"%string
  ∧ is_Some (m !! "style_encoder"%string)
  ∧ ∀ key, key ≠ "predictor_encoder"%string →
           Train.model (initial_state su) !! key = m !! key.
Proof.
  intros Hlp Hsu Hload.
  destruct (startup_first_stage_inv cfg model su Hlp Hsu)
    as (m' & o' & se' & it' & style & Hload' & _ & Hs & Hm & _).
  rewrite Hload in Hload'. injection Hload' as <- <- <- <-.
  simpl. rewrite Hm. split; [by rewrite lookup_insert_eq|].
  split; [by eexists|].
  intros key Hne. by rewrite lookup_insert_ne.
Qed.

End WithCollaborators.

Lemma startup_requires_first_stage_witness :
  startup ex_first_stage ex_build_optimizer ex_cfg_nopath ex_model
  = Raise ValueError.
Proof.
  apply (startup_requires_first_stage ex_zero_grad ex_optimizer_step ex_first_stage
           ex_build_optimizer ex_cfg_nopath ex_model ex_data);
    reflexivity.
Defined.

Lemma restore_keeps_configured_thresholds_witness :
  ∃ su, startup (load_checkpoint_spec (fun _ => ex_registry_checkpoint))
                ex_build_optimizer ex_cfg_resume ex_registry = Ok su
    ∧ start_epoch su = 9%Z
    ∧ su_thresholds su = mkThresholds 10 30 50.
Proof.
  assert (∃ su, startup (load_checkpoint_spec (fun _ => ex_registry_checkpoint))
                  ex_build_optimizer ex_cfg_resume ex_registry = Ok su
                ∧ start_epoch su = 9%Z) as (su & Hsu & Hse)
    by (eexists; split; reflexivity).
  exists su. split; [exact Hsu|]. split; [exact Hse|].
  apply (restore_keeps_configured_thresholds ex_zero_grad ex_optimizer_step
           (load_checkpoint_spec (fun _ => ex_registry_checkpoint))
           ex_build_optimizer ex_cfg_resume ex_registry ex_data su);
    [reflexivity|exact Hsu].
Defined.

Lemma first_stage_runs_configured_epochs_witness :
  ∃ su, startup ex_first_stage_at ex_build_optimizer ex_cfg ex_registry = Ok su
    ∧ start_epoch su = 5%Z
    ∧ (epochs (su_thresholds su) - start_epoch su = 50)%Z.
Proof.
  assert (∃ su, startup ex_first_stage_at ex_build_optimizer ex_cfg ex_registry
                = Ok su ∧ start_epoch su = 5%Z) as (su & Hsu & Hse)
    by (eexists; split; reflexivity).
  exists su. split; [exact Hsu|]. split; [exact Hse|].
  apply (first_stage_runs_configured_epochs ex_zero_grad ex_optimizer_step
           ex_first_stage_at ex_build_optimizer ex_cfg ex_registry ex_data su);
    [reflexivity|exact Hsu].
Defined.

Lemma first_stage_copies_style_encoder_witness :
  ∃ su, startup ex_first_stage_at ex_build_optimizer ex_cfg ex_registry = Ok su
    ∧ Train.model (initial_state su) !! "predictor_encoder"%string
      = Some ex_style
    ∧ Train.model (initial_state su) !! "mpd"%string
      = ex_registry !! "mpd"%string.
Proof.
  assert (∃ su, startup ex_first_stage_at ex_build_optimizer ex_cfg ex_registry
                = Ok su) as (su & Hsu) by (eexists; reflexivity).
  exists su. split; [exact Hsu|].
  destruct (first_stage_copies_style_encoder ex_first_stage_at
              ex_build_optimizer ex_cfg ex_registry su ex_registry None
              5%Z 1234%Z) as (Hpe & _ & Hother);
    [reflexivity|exact Hsu|reflexivity|].
  split; [exact Hpe|]. by apply Hother.
Defined.

Lemma set_unit_max_lr_some (key : string) (v : Q)
  (d : gmap string SchedulerParams) (p : SchedulerParams) :
  d !! key = Some p →
  set_unit_max_lr key v d = Ok (<[key := set_max_lr v p]> d).
Proof. intros H. unfold set_unit_max_lr, getitem. by rewrite H. Qed.

Lemma set_unit_max_lr_none (key : string) (v : Q)
  (d : gmap string SchedulerParams) :
  d !! key = None → set_unit_max_lr key v d = Raise KeyError.
Proof. intros H. unfold set_unit_max_lr, getitem. by rewrite H. Qed.

(** X5: the schedule parameters handed to [build_optimizer] hold one
    entry per unit of the registry: peak rate [2 * bert_lr] for ["bert"],
    [2 * ft_lr] for ["decoder"] and ["style_encoder"], the shared rate for
    every other unit, all with no warm-up, the (shifted) number of epochs
    and the length of the training loader.  A registry that lacks one of
    the three named units stops startup with [KeyError]. *)
Theorem scheduler_params_per_unit cfg th (model : gmap string Unit) :
  let shared := mkSched (opt_lr cfg) 0 (epochs th) (train_loader_len cfg) in
  (has_finetuned_units model →
   ∃ d, scheduler_params_dict_of cfg th model = Ok d
     ∧ d !! "bert"%string = Some (set_max_lr (bert_lr cfg * 2) shared)
     ∧ d !! "decoder"%string = Some (set_max_lr (ft_lr cfg * 2) shared)
     ∧ d !! "style_encoder"%string = Some (set_max_lr (ft_lr cfg * 2) shared)
     ∧ ∀ key, key ≠ "bert"%string → key ≠ "decoder"%string →
              key ≠ "style_encoder"%string →
              d !! key = (fun _ => shared) <$> model !! key)
  ∧ (¬ has_finetuned_units model →
     scheduler_params_dict_of cfg th model = Raise KeyError).
Proof.
  intros shared. unfold scheduler_params_dict_of. fold shared.
  set (d0 := (fun _ => shared) <$> model).
  assert (∀ key, d0 !! key = (fun _ => shared) <$> model !! key) as Hd0
    by (intros key; apply lookup_fmap).
  split.
  - intros ([ub Hb] & [ud Hd] & [us Hs]).
    rewrite (set_unit_max_lr_some "bert" _ d0 shared)
      by (by rewrite Hd0, Hb).
    simpl.
    rewrite (set_unit_max_lr_some "decoder" _ _ shared)
      by (by rewrite lookup_insert_ne, Hd0, Hd).
    simpl.
    rewrite (set_unit_max_lr_some "style_encoder" _ _ shared)
      by (by rewrite !lookup_insert_ne, Hd0, Hs).
    eexists. split; [reflexivity|]. repeat split.
    + do 2 (rewrite lookup_insert_ne by done). by rewrite lookup_insert_eq.
    + rewrite lookup_insert_ne by done. by rewrite lookup_insert_eq.
    + by rewrite lookup_insert_eq.
    + intros key H1 H2 H3. by rewrite !lookup_insert_ne.
  - intros Hno.
    destruct (model !! "bert"%string) as [ub|] eqn:Hb.
    2:{ rewrite (set_unit_max_lr_none "bert" _ d0) by (by rewrite Hd0, Hb).
        reflexivity. }
    rewrite (set_unit_max_lr_some "bert" _ d0 shared) by (by rewrite Hd0, Hb).
    simpl.
    destruct (model !! "decoder"%string) as [ud|] eqn:Hd.
    2:{ rewrite set_unit_max_lr_none
          by (by rewrite lookup_insert_ne, Hd0, Hd).
        reflexivity. }
    rewrite (set_unit_max_lr_some "decoder" _ _ shared)
      by (by rewrite lookup_insert_ne, Hd0, Hd).
    simpl.
    destruct (model !! "style_encoder"%string) as [us|] eqn:Hs.
    2:{ rewrite set_unit_max_lr_none
          by (by rewrite !lookup_insert_ne, Hd0, Hs).
        reflexivity. }
    exfalso. apply Hno. repeat split; by eexists.
Qed.

Lemma scheduler_params_per_unit_witness :
  ∃ d, scheduler_params_dict_of ex_cfg ex_th ex_model = Ok d
    ∧ d !! "bert"%string
      = Some (mkSched (1e-5 * 2)%Q 0 55 100).
Proof.
  destruct (scheduler_params_per_unit ex_cfg ex_th ex_model) as [H _].
  destruct (H StartupClaims.ex_model_finetuned) as (d & Hd & Hb & _).
  exists d. split; [exact Hd|exact Hb].
Defined.

End StartupMore.

(** ** More on the gradient surgery *)

Module SurgeryMore.
Import Py Grad GradFacts SurgeryFacts Observe Examples MoreExamples.
Local Open Scope R_scope.

Lemma pscale_one (p : Param) : pscale 1 p = p.
Proof.
  unfold pscale. destruct p as [n r [g|]]; simpl; [|done].
  f_equal. f_equal. unfold tscale. induction g as [|x g IH]; simpl; [done|].
  rewrite IH. f_equal. ring.
Qed.

Lemma shape_pscale (c : R) (p : Param) : shape (pscale c p) = shape p.
Proof.
  unfold shape, pscale. destruct (grad p) as [g|] eqn:Hg; simpl.
  - unfold tscale. by rewrite length_map.
  - by rewrite Hg.
Qed.

(** A rescale that returns has either left the registry alone or passed
    every unit through one [pscale]. *)
Lemma gradient_scaling_inv (thresh : R) (model m1 : gmap string Unit) :
  gradient_scaling thresh model = Ok m1 →
  is_Some (model !! "predictor"%string)
  ∧ (m1 = model ∨ ∃ c, m1 = rescale_all c model).
Proof.
  unfold gradient_scaling, getitem, total_norm. rewrite lookup_fmap.
  destruct (model !! "predictor"%string) as [pred|]; simpl; [|discriminate].
  intros H. split; [by eexists|]. revert H.
  destruct (Rgt_dec (unit_norm pred) thresh); [|intros [= <-]; by left].
  destruct (Req_dec_T (unit_norm pred) 0).
  - destruct (decide (some_grad model)); [discriminate|].
    intros [= <-]. by left.
  - intros [= <-]. right. by eexists.
Qed.

Lemma targeted_amplification_inv (scale : R) (m1 m2 : gmap string Unit) :
  targeted_amplification scale m1 = Ok m2 →
  ∀ key, m2 !! key
         = map (fun p => if amplified key p then pscale scale p else p)
           <$> m1 !! key.
Proof.
  intros H.
  assert (is_Some (m1 !! "predictor"%string)
          ∧ is_Some (m1 !! "diffusion"%string)) as [Hp Hd].
  { revert H. unfold targeted_amplification, getattr.
    destruct (m1 !! "predictor"%string) as [pred|]; simpl; [|discriminate].
    rewrite !lookup_alter_ne by done.
    destruct (m1 !! "diffusion"%string) as [diff|]; simpl; [|discriminate].
    intros _. split; by eexists. }
  destruct (targeted_amplification_lookup scale m1 Hp Hd) as (m2' & H' & Hall).
  rewrite H in H'. injection H' as <-.
  intros key. destruct (m1 !! key) as [u|] eqn:Hu; simpl; [by apply Hall|].
  revert H. unfold targeted_amplification, getattr.
  destruct Hp as [pred Hp]. rewrite Hp. simpl.
  rewrite !lookup_alter_ne by done.
  destruct Hd as [diff Hd]. rewrite Hd. simpl. intros [= <-].
  rewrite !lookup_alter. repeat case_decide; subst; by rewrite ?Hu.
Qed.

(** X6: a triggered rescale leaves the predictor with a gradient norm of
    exactly 1, and rescaling the result again changes nothing. *)
Theorem rescale_normalises_predictor (thresh : R) (model : gmap string Unit)
  (pred : Unit) :
  model !! "predictor"%string = Some pred →
  unit_norm pred > thresh →
  unit_norm pred ≠ 0 →
  ∃ model' pred',
    gradient_scaling thresh model = Ok model'
    ∧ model' !! "predictor"%string = Some pred'
    ∧ unit_norm pred' = 1
    ∧ gradient_scaling thresh model' = Ok model'.
Proof.
  intros Hp Hgt Hnz.
  assert (0 < unit_norm pred) as Hpos
    by (pose proof (unit_norm_nonneg pred); lra).
  set (model' := rescale_all (1 / unit_norm pred) model).
  set (pred' := map (pscale (1 / unit_norm pred)) pred).
  assert (model' !! "predictor"%string = Some pred') as Hp'.
  { unfold model'. by rewrite rescale_all_lookup, Hp. }
  assert (unit_norm pred' = 1) as H1.
  { unfold pred'. rewrite unit_norm_rescaled by done. by field. }
  exists model', pred'. split; [by apply gradient_scaling_triggered|].
  split; [done|]. split; [done|].
  destruct (Rgt_dec (unit_norm pred') thresh) as [Hgt'|Hle].
  - rewrite (gradient_scaling_triggered thresh model' pred' Hp' Hgt')
      by (rewrite H1; lra).
    f_equal. rewrite H1. apply map_eq. intros key.
    rewrite rescale_all_lookup.
    destruct (model' !! key) as [u|]; simpl; [|done].
    f_equal. replace (1 / 1) with 1 by field.
    induction u as [|p u IH]; simpl; [done|]. by rewrite pscale_one, IH.
  - by apply (gradient_scaling_idle thresh model' pred').
Qed.

Lemma rescale_normalises_predictor_witness :
  ∃ model' pred',
    gradient_scaling 2 ex_model = Ok model'
    ∧ model' !! "predictor"%string = Some pred'
    ∧ unit_norm pred' = 1.
Proof.
  destruct (rescale_normalises_predictor 2 ex_model ex_pred)
    as (model' & pred' & H1 & H2 & H3 & _).
  - reflexivity.
  - rewrite SurgeryClaims.ex_pred_norm. lra.
  - rewrite SurgeryClaims.ex_pred_norm. lra.
  - exists model', pred'. split; [exact H1|]. split; [exact H2|exact H3].
Defined.

(** X7: the surgery only rewrites gradient values: in the registry it
    returns, every unit has the same parameters in the same order, with
    the same names and [requires_grad] flags, a gradient exactly where
    there was one, and of the same size; no unit appears or disappears. *)
Theorem gradient_surgery_preserves_shapes (thresh scale : R)
  (model model' : gmap string Unit) :
  gradient_surgery thresh scale model = Ok model' →
  ∀ key, map shape <$> model' !! key = map shape <$> model !! key.
Proof.
  unfold gradient_surgery.
  destruct (gradient_scaling thresh model) as [e|m1] eqn:Hs; simpl;
    [discriminate|].
  intros Ha key. rewrite (targeted_amplification_inv scale m1 model' Ha key).
  apply gradient_scaling_inv in Hs as [_ [->|[c ->]]].
  - destruct (model !! key) as [u|]; simpl; [|done]. f_equal.
    rewrite map_map. apply map_ext. intros p.
    destruct (amplified key p); [apply shape_pscale|done].
  - rewrite rescale_all_lookup.
    destruct (model !! key) as [u|]; simpl; [|done]. f_equal.
    rewrite !map_map. apply map_ext. intros p.
    destruct (amplified key (pscale c p)); by rewrite ?shape_pscale.
Qed.

Lemma gradient_surgery_preserves_shapes_witness :
  ∃ model', gradient_surgery 2 10 ex_model = Ok model'
    ∧ map shape <$> model' !! "predictor"%string
      = map shape <$> ex_model !! "predictor"%string.
Proof.
  assert (∃ model', gradient_surgery 2 10 ex_model = Ok model')
    as [model' Hrun].
  { unfold gradient_surgery.
    rewrite (gradient_scaling_triggered 2 ex_model ex_pred)
      by (try reflexivity; rewrite SurgeryClaims.ex_pred_norm; lra).
    simpl.
    destruct (targeted_amplification_lookup 10
                (rescale_all (1 / unit_norm ex_pred) ex_model))
      as (m2 & H2 & _); [by eexists|by eexists|]. by exists m2. }
  exists model'. split; [exact Hrun|].
  exact (gradient_surgery_preserves_shapes 2 10 ex_model model' Hrun
           "predictor"%string).
Defined.

(** X8: the surgery needs both named units: without a ["predictor"]
    entry it stops with [KeyError] at the threshold test, and with a
    predictor but no ["diffusion"] entry with [AttributeError] at the
    third amplification loop. *)
Theorem gradient_surgery_missing_units (thresh scale : R)
  (model : gmap string Unit) :
  (model !! "predictor"%string = None →
   gradient_surgery thresh scale model = Raise KeyError)
  ∧ (∀ pred, model !! "predictor"%string = Some pred →
       model !! "diffusion"%string = None →
       (unit_norm pred > thresh → unit_norm pred ≠ 0) →
       gradient_surgery thresh scale model = Raise AttributeError).
Proof.
  split.
  - intros Hp. unfold gradient_surgery, gradient_scaling, getitem, total_norm.
    by rewrite lookup_fmap, Hp.
  - intros pred Hp Hd Hnz. unfold gradient_surgery.
    assert (∃ m1, gradient_scaling thresh model = Ok m1
                  ∧ is_Some (m1 !! "predictor"%string)
                  ∧ m1 !! "diffusion"%string = None) as (m1 & -> & [q Hq] & Hd1).
    { destruct (Rgt_dec (unit_norm pred) thresh) as [Hgt|Hle].
      - eexists. split; [by apply gradient_scaling_triggered; auto|].
        rewrite !rescale_all_lookup, Hp, Hd. split; [by eexists|done].
      - exists model. split; [by eapply gradient_scaling_idle|].
        split; [by eexists|done]. }
    simpl. unfold targeted_amplification, getattr. rewrite Hq. simpl.
    rewrite !lookup_alter_ne by done. by rewrite Hd1.
Qed.

Lemma gradient_surgery_missing_units_witness :
  gradient_surgery 2 10 ex_model_no_pred = Raise KeyError
  ∧ gradient_surgery 5 10 ex_model_no_diff = Raise AttributeError.
Proof.
  split.
  - apply (gradient_surgery_missing_units 2 10 ex_model_no_pred). reflexivity.
  - apply (gradient_surgery_missing_units 5 10 ex_model_no_diff) with ex_pred.
    + reflexivity.
    + reflexivity.
    + rewrite SurgeryClaims.ex_pred_norm. lra.
Defined.

End SurgeryMore.

(** ** More on the training step *)

Module StepMore.
Import Py Grad Optim Train StepFacts StepClaims CropFacts Observe
       Examples MoreExamples.

Lemma geb_false (a b : Z) : (a < b)%Z → (a >=? b)%Z = false.
Proof.
  intros H. destruct (a >=? b)%Z eqn:E; [|done]. apply Z.geb_le in E. lia.
Qed.

Lemma count_steps_app (key : string) (l1 l2 : list Event) :
  count_steps key (l1 ++ l2) = (count_steps key l1 + count_steps key l2)%nat.
Proof. unfold count_steps. by rewrite filter_app, length_app. Qed.

Lemma count_steps_zero (key : string) (evs : list Event) :
  (∀ e, e ∈ evs → is_step_of key e = false) → count_steps key evs = 0%nat.
Proof.
  unfold count_steps. induction evs as [|e evs IH]; intros H; [done|].
  rewrite filter_cons.
  destruct (decide (is_step_of key e = true)) as [Heq|_].
  - rewrite (H e) in Heq by (apply elem_of_cons; by left). discriminate.
  - apply IH. intros e' He'. apply H. apply elem_of_cons. by right.
Qed.

Lemma count_steps_add_scalar (key : string) (evs : list Event) :
  Forall (fun e => is_add_scalar e = true) evs → count_steps key evs = 0%nat.
Proof.
  intros H. apply count_steps_zero. intros e He.
  rewrite Forall_forall in H. apply H in He. by destruct e.
Qed.

(** The adversarial stage steps no unit outside its own five. *)
Lemma slm_events_steps cfg th epoch i b key :
  OptStep key ∈ slm_events cfg th epoch i b →
  key ∈ ["bert_encoder"; "bert"; "predictor"; "diffusion"; "wd"]%string.
Proof.
  unfold slm_events. destruct (epoch >=? joint_epoch th)%Z;
    [|intros H; by apply elem_of_nil in H].
  intros H. apply elem_of_cons in H as [H|H]; [discriminate|].
  destruct (slmadv b i _) as [[d l]|]; [|by apply elem_of_nil in H].
  apply elem_of_app in H as [H|H].
  - repeat (apply elem_of_cons in H as [H|H];
            [try discriminate; injection H as ->;
             repeat (apply elem_of_cons; first [left; reflexivity | right])|]).
    by apply elem_of_nil in H.
  - destruct (Req_dec_T d 0); [by apply elem_of_nil in H|].
    repeat (apply elem_of_cons in H as [H|H];
            [try discriminate; injection H as ->;
             repeat (apply elem_of_cons; first [left; reflexivity | right])|]).
    by apply elem_of_nil in H.
Qed.

Lemma count_steps_slm_other cfg th epoch i b key :
  key ∉ ["bert_encoder"; "bert"; "predictor"; "diffusion"; "wd"]%string →
  count_steps key (slm_events cfg th epoch i b) = 0%nat.
Proof.
  intros Hkey. apply count_steps_zero. intros e He.
  destruct e as [| | k | | | |]; try reflexivity.
  simpl. destruct (String.eqb k key) eqn:E; [|done].
  apply String.eqb_eq in E as ->. apply slm_events_steps in He. contradiction.
Qed.

Lemma count_steps_main_discriminator cfg th epoch b ls ld :
  count_steps "msd" (main_events cfg th epoch b ls ld) = 1%nat
  ∧ count_steps "mpd" (main_events cfg th epoch b ls ld) = 1%nat.
Proof.
  unfold main_events. rewrite !count_steps_app.
  split; destruct (epoch >=? diff_epoch th)%Z; reflexivity.
Qed.

Section WithCollaborators.
Variable zero_grad : gmap string Unit → gmap string Unit.
Variable optimizer_step : string → Optimizers → Optimizers.

(** A step that returns was either dropped before any collaborator call
    or went through the three groups of calls and counted itself. *)
Lemma train_step_cases cfg th epoch i b s s' :
  train_step zero_grad optimizer_step cfg th epoch i b s = Ok s' →
  (trace s' = trace s ∧ iters s' = iters s)
  ∨ ∃ ls ld log_evs,
      trace s' = trace s ++ main_events cfg th epoch b ls ld
                         ++ slm_events cfg th epoch i b ++ log_evs
      ∧ Forall (fun e => is_add_scalar e = true) log_evs
      ∧ iters s' = (iters s + 1)%Z.
Proof.
  unfold train_step. destruct (aligner_raises b); [intros [= <-]; by left|].
  destruct (denoiser_training cfg th epoch b (np_random b) s)
    as [e|[[[ls ld] g] s1]] eqn:Hden; simpl; [discriminate|].
  apply denoiser_training_frame in Hden as (_ & _ & Hi & Ht & _).
  intros H. apply finish_step_cases in H
    as [->|(evs & Hts & Hevs & Hit & _)]; [by left|].
  right. exists ls, ld, evs. rewrite Hts, Ht, Hit, Hi. done.
Qed.

Lemma train_batches_counter cfg th epoch i bs s s' :
  train_batches zero_grad optimizer_step cfg th epoch i bs s = Ok s' →
  ∃ n : nat,
    (n <= length bs)%nat
    ∧ iters s' = (iters s + Z.of_nat n)%Z
    ∧ count_steps "msd" (trace s') = (count_steps "msd" (trace s) + n)%nat
    ∧ count_steps "mpd" (trace s') = (count_steps "mpd" (trace s) + n)%nat.
Proof.
  revert i s. induction bs as [|b bs IH]; intros i s; simpl.
  - intros [= <-]. exists 0%nat. repeat split; lia.
  - destruct (train_step zero_grad optimizer_step cfg th epoch i b s)
      as [e|s1] eqn:Hstep; simpl; [discriminate|].
    intros Hrest. destruct (IH _ _ Hrest) as (n & Hn & Hi & Hmsd & Hmpd).
    apply train_step_cases in Hstep
      as [[Ht Hit]|(ls & ld & evs & Ht & Hevs & Hit)].
    + exists n. rewrite Hi, Hmsd, Hmpd, Ht, Hit. repeat split; lia.
    + exists (S n). rewrite Hi, Hmsd, Hmpd, Ht, Hit.
      rewrite !count_steps_app.
      destruct (count_steps_main_discriminator cfg th epoch b ls ld)
        as [-> ->].
      rewrite !count_steps_slm_other, !(count_steps_add_scalar _ evs Hevs).
      * repeat split; lia.
      * intros H. repeat (apply elem_of_cons in H as [H|H]; [discriminate|]).
        by apply elem_of_nil in H.
      * intros H. repeat (apply elem_of_cons in H as [H|H]; [discriminate|]).
        by apply elem_of_nil in H.
Qed.

(** X9: over the batches of an epoch the iteration counter counts the
    discriminator updates: it grows by the number [n] of batches that were
    not dropped, and both ["msd"] and ["mpd"] are stepped exactly [n]
    times. *)
Theorem iters_counts_discriminator_steps cfg th epoch i bs s s' :
  train_batches zero_grad optimizer_step cfg th epoch i bs s = Ok s' →
  ∃ n : nat,
    (n <= length bs)%nat
    ∧ iters s' = (iters s + Z.of_nat n)%Z
    ∧ count_steps "msd" (trace s') = (count_steps "msd" (trace s) + n)%nat
    ∧ count_steps "mpd" (trace s') = (count_steps "mpd" (trace s) + n)%nat.
Proof. apply train_batches_counter. Qed.

(** X10: a batch dropped at the width check in an epoch of the
    diffusion stage has already left its mark: with [estimate_sigma_data]
    set, its sigma estimate is appended to [running_std], while no
    collaborator call is recorded and the counter stays. *)
Theorem dropped_batch_keeps_sigma_estimate cfg th epoch i b s
  mel_len offsets width :
  aligner_raises b = false →
  (diff_epoch th <= epoch)%Z →
  estimate_sigma_data cfg = true →
  crop_segments cfg b (fun n => np_random b (S n)) = Ok (mel_len, offsets, width) →
  (width < 80)%Z →
  ∃ s', train_step zero_grad optimizer_step cfg th epoch i b s = Ok s'
    ∧ running_std s' = running_std s ++ [sigma_estimate b]
    ∧ trace s' = trace s
    ∧ iters s' = iters s.
Proof.
  intros Ha Hep Hest Hcrop Hw.
  unfold train_step, denoiser_training. rewrite Ha.
  rewrite (proj2 (Z.geb_le epoch (diff_epoch th)) Hep).
  unfold randint. simpl. rewrite Hest.
  destruct (diffusion_losses b _ _) as [ld ls]. simpl.
  unfold finish_step. rewrite Hcrop. simpl.
  rewrite (proj2 (Z.ltb_lt width 80) Hw).
  eexists. split; [reflexivity|]. by unfold_state.
Qed.

(** X11: below [joint_epoch] a step never steps the critic ["wd"], and it
    steps the diffusion unit once per counted batch from [diff_epoch] on
    and not at all before. *)
Theorem diffusion_steps_follow_diff_epoch cfg th epoch i b s s' :
  (epoch < joint_epoch th)%Z →
  train_step zero_grad optimizer_step cfg th epoch i b s = Ok s' →
  count_steps "wd" (trace s') = count_steps "wd" (trace s)
  ∧ count_steps "diffusion" (trace s')
    = (count_steps "diffusion" (trace s)
       + if (epoch >=? diff_epoch th)%Z
         then Z.to_nat (iters s' - iters s) else 0)%nat.
Proof.
  intros Hj Hstep.
  apply train_step_cases in Hstep
    as [[Ht Hit]|(ls & ld & evs & Ht & Hevs & Hit)].
  - rewrite Ht, Hit, Z.sub_diag. destruct (epoch >=? diff_epoch th)%Z;
      split; simpl; lia.
  - rewrite Ht, Hit, slm_events_gated by done.
    rewrite !count_steps_app, !(count_steps_add_scalar _ evs Hevs).
    replace (iters s + 1 - iters s)%Z with 1%Z by lia.
    unfold main_events. rewrite !count_steps_app.
    assert (∀ key v, count_steps key
              [ZeroGrad; Backward DLoss (d_loss b); OptStep "msd";
               OptStep "mpd"; ZeroGrad; Backward GLoss v;
               OptStep "bert_encoder"; OptStep "bert"; OptStep "predictor";
               OptStep "predictor_encoder"; OptStep "style_encoder";
               OptStep "decoder"; OptStep "text_encoder";
               OptStep "text_aligner"]
            = count_steps key
              [OptStep "msd"; OptStep "mpd"; OptStep "bert_encoder";
               OptStep "bert"; OptStep "predictor";
               OptStep "predictor_encoder"; OptStep "style_encoder";
               OptStep "decoder"; OptStep "text_encoder";
               OptStep "text_aligner"]) as Hfix by reflexivity.
    rewrite !Hfix.
    set (base := [OptStep "msd"; OptStep "mpd"; OptStep "bert_encoder";
                  OptStep "bert"; OptStep "predictor";
                  OptStep "predictor_encoder"; OptStep "style_encoder";
                  OptStep "decoder"; OptStep "text_encoder";
                  OptStep "text_aligner"]).
    assert (count_steps "wd" base = 0%nat
            ∧ count_steps "diffusion" base = 0%nat
            ∧ count_steps "wd" [OptStep "diffusion"] = 0%nat
            ∧ count_steps "diffusion" [OptStep "diffusion"] = 1%nat
            ∧ ∀ key, count_steps key [] = 0%nat)
      as (E1 & E2 & E3 & E4 & E5) by (repeat split; reflexivity).
    destruct (epoch >=? diff_epoch th)%Z;
      rewrite ?E1, ?E2, ?E3, ?E4, ?E5; split; lia.
Qed.

(** X12: the adversarial stage steps the critic ["wd"] exactly when the
    discriminator loss it reports is not zero, and it never steps a unit
    outside bert_encoder, bert, predictor, diffusion and wd. *)
Theorem slm_stage_steps cfg th epoch i b s d l s' :
  slm_stage zero_grad optimizer_step cfg th epoch i b s = Ok (d, l, s') →
  count_steps "wd" (trace s')
  = (count_steps "wd" (trace s) + if Req_dec_T d 0 then 0 else 1)%nat
  ∧ ∀ key,
      key ∉ ["bert_encoder"; "bert"; "predictor"; "diffusion"; "wd"]%string →
      count_steps key (trace s') = count_steps key (trace s).
Proof.
  intros H. pose proof (slm_stage_trace _ _ _ _ _ _ _ _ _ _ _ H) as Ht.
  split.
  - rewrite Ht, count_steps_app. f_equal. revert H.
    unfold slm_stage, slm_events.
    destruct (epoch >=? joint_epoch th)%Z.
    2:{ intros [= <- _ _]. by destruct (Req_dec_T 0 0). }
    destruct (multispeaker cfg && negb (epoch >=? diff_epoch th)%Z);
      [discriminate|].
    destruct (slmadv b i _) as [[d' l']|].
    2:{ intros [= <- _ _]. by destruct (Req_dec_T 0 0). }
    destruct (gradient_surgery _ _ _); simpl; [discriminate|].
    intros [= Hd _ _]. rewrite Hd.
    destruct (Req_dec_T d 0); reflexivity.
  - intros key Hkey. rewrite Ht, count_steps_app.
    rewrite count_steps_slm_other by done. lia.
Qed.

(** X13: with [multispeaker] set, a batch that passes the width check in
    an epoch that has reached [joint_epoch] but not [diff_epoch] stops the
    run with [UnboundLocalError]: the reference style [ref] the
    adversarial stage is called with is only ever assigned from
    [diff_epoch] on. *)
Theorem adversarial_stage_before_diffusion_raises cfg th epoch i b s
  mel_len offsets width :
  aligner_raises b = false →
  multispeaker cfg = true →
  (joint_epoch th <= epoch)%Z →
  (epoch < diff_epoch th)%Z →
  crop_segments cfg b (np_random b) = Ok (mel_len, offsets, width) →
  (80 <= width)%Z →
  train_step zero_grad optimizer_step cfg th epoch i b s = Raise UnboundLocalError.
Proof.
  intros Ha Hm Hj Hd Hcrop Hw.
  unfold train_step, denoiser_training. rewrite Ha.
  rewrite (geb_false epoch (diff_epoch th) Hd). simpl.
  unfold finish_step. rewrite Hcrop. simpl.
  rewrite (proj2 (Z.ltb_ge width 80) Hw).
  unfold slm_stage.
  rewrite (proj2 (Z.geb_le epoch (joint_epoch th)) Hj), Hm.
  by rewrite (geb_false epoch (diff_epoch th) Hd).
Qed.

(** What the adversarial stage does once it is entered, [slmadv] reports
    a result and the surgery goes through. *)
Lemma slm_stage_entered cfg th epoch i b s d l g :
  (joint_epoch th <= epoch)%Z →
  multispeaker cfg && negb (epoch >=? diff_epoch th)%Z = false →
  slmadv b i (if Rlt_dec (np_rand b) 0.5 then true else false) = Some (d, l) →
  gradient_surgery (thresh cfg) (scale cfg)
                   (autograd b LossGenLm (zero_grad (model s))) = Ok g →
  ∃ s', slm_stage zero_grad optimizer_step cfg th epoch i b s = Ok (d, l, s').
Proof.
  intros Hj Hm Hslm Hg. unfold slm_stage.
  rewrite (proj2 (Z.geb_le epoch (joint_epoch th)) Hj), Hm, Hslm.
  cbn [model emit opt_zero_grad backward set_model]. rewrite Hg.
  cbn [mbind result_bind]. by eexists.
Qed.


End WithCollaborators.

Lemma iters_counts_discriminator_steps_witness :
  ∃ s' n,
    train_batches ex_zero_grad ex_optimizer_step ex_cfg ex_th 3 0
                  [ex_batch; ex_short_batch; ex_batch] ex_state = Ok s'
    ∧ iters s' = (iters ex_state + Z.of_nat n)%Z
    ∧ count_steps "msd" (trace s')
      = (count_steps "msd" (trace ex_state) + n)%nat.
Proof.
  assert (∃ s', train_batches ex_zero_grad ex_optimizer_step ex_cfg ex_th 3 0
                  [ex_batch; ex_short_batch; ex_batch] ex_state = Ok s')
    as [s' Hrun] by (eexists; reflexivity).
  destruct (iters_counts_discriminator_steps _ _ _ _ _ _ _ _ _ Hrun)
    as (n & _ & Hi & Hmsd & _).
  exists s', n. split; [exact Hrun|]. split; [exact Hi|exact Hmsd].
Defined.

Lemma dropped_batch_keeps_sigma_estimate_witness :
  ∃ s', train_step ex_zero_grad ex_optimizer_step ex_cfg ex_th 20 0
                   ex_short_batch ex_state = Ok s'
    ∧ running_std s' = running_std ex_state ++ [sigma_estimate ex_short_batch].
Proof.
  edestruct (dropped_batch_keeps_sigma_estimate ex_zero_grad ex_optimizer_step
               ex_cfg ex_th 20 0 ex_short_batch ex_state)
    as (s' & Hrun & Hstd & _).
  - reflexivity.
  - vm_compute. discriminate.
  - reflexivity.
  - reflexivity.
  - reflexivity.
  - exists s'. split; [exact Hrun|exact Hstd].
Defined.

Lemma diffusion_steps_follow_diff_epoch_witness :
  ∃ s', train_step ex_zero_grad ex_optimizer_step ex_cfg ex_th 20 0
                   ex_batch ex_state = Ok s'
    ∧ count_steps "wd" (trace s') = count_steps "wd" (trace ex_state).
Proof.
  assert (∃ s', train_step ex_zero_grad ex_optimizer_step ex_cfg ex_th 20 0
                  ex_batch ex_state = Ok s')
    as [s' Hrun] by (eexists; reflexivity).
  exists s'. split; [exact Hrun|].
  apply (diffusion_steps_follow_diff_epoch ex_zero_grad ex_optimizer_step
           ex_cfg ex_th 20 0 ex_batch ex_state s'); [reflexivity|exact Hrun].
Defined.

(** Freshly cleared gradients have norm 0. *)
Lemma unit_norm_zeroed (u : Unit) :
  unit_norm (map (fun p => mkParam (pname p) (requires_grad p) None) u) = 0%R.
Proof.
  rewrite GradFacts.unit_norm_unfold.
  assert (unit_sq (map (fun p => mkParam (pname p) (requires_grad p) None) u)
          = 0%R) as ->; [|apply sqrt_0].
  induction u as [|p u IH]; [reflexivity|].
  cbn [map]. rewrite GradFacts.unit_sq_cons, IH. cbn [counted grad]. lra.
Qed.

(** On cleared gradients the surgery goes through: the rescale is idle
    and the amplification finds nothing to multiply. *)
Lemma ex_zero_grad_surgery (t sc : R) (m : gmap string Unit) :
  (0 <= t)%R →
  is_Some (m !! "predictor"%string) →
  is_Some (m !! "diffusion"%string) →
  ∃ g, gradient_surgery t sc (ex_zero_grad m) = Ok g.
Proof.
  intros Ht [pred Hp] [diff Hd]. unfold gradient_surgery.
  rewrite (SurgeryFacts.gradient_scaling_idle t (ex_zero_grad m)
             (map (fun p => mkParam (pname p) (requires_grad p) None) pred)).
  - cbn [mbind result_bind].
    destruct (SurgeryFacts.targeted_amplification_lookup sc (ex_zero_grad m))
      as (g & Hg & _).
    + unfold ex_zero_grad. rewrite lookup_fmap, Hp. by eexists.
    + unfold ex_zero_grad. rewrite lookup_fmap, Hd. by eexists.
    + by exists g.
  - unfold ex_zero_grad. by rewrite lookup_fmap, Hp.
  - rewrite unit_norm_zeroed. lra.
Qed.

Lemma slm_stage_steps_witness :
  ∃ d l s', slm_stage ex_zero_grad ex_optimizer_step ex_cfg ex_th 40 0
                      ex_batch ex_state = Ok (d, l, s')
    ∧ d = 1%R
    ∧ count_steps "wd" (trace s') = (count_steps "wd" (trace ex_state) + 1)%nat
    ∧ count_steps "decoder" (trace s') = count_steps "decoder" (trace ex_state).
Proof.
  destruct (ex_zero_grad_surgery (thresh ex_cfg) (scale ex_cfg)
              (model ex_state)) as [g Hg];
    [cbn [thresh ex_cfg]; lra|by eexists|by eexists|].
  destruct (slm_stage_entered ex_zero_grad ex_optimizer_step ex_cfg ex_th 40 0
              ex_batch ex_state 1%R 2%R g) as [s' Hrun];
    [vm_compute; discriminate|reflexivity|reflexivity|exact Hg|].
  exists 1%R, 2%R, s'. split; [exact Hrun|]. split; [reflexivity|].
  destruct (slm_stage_steps ex_zero_grad ex_optimizer_step ex_cfg ex_th 40 0
              ex_batch ex_state 1%R 2%R s' Hrun) as [Hwd Hother].
  split.
  - rewrite Hwd. destruct (Req_dec_T 1 0) as [H10|_]; [lra|reflexivity].
  - apply Hother.
    intros H. repeat (apply elem_of_cons in H as [H|H]; [discriminate|]).
    by apply elem_of_nil in H.
Defined.

Lemma adversarial_stage_before_diffusion_raises_witness :
  train_step ex_zero_grad ex_optimizer_step ex_cfg_multi ex_th_swapped 20 0
             ex_batch ex_state
  = Raise UnboundLocalError.
Proof.
  eapply (adversarial_stage_before_diffusion_raises ex_zero_grad
            ex_optimizer_step ex_cfg_multi ex_th_swapped 20 0 ex_batch
            ex_state).
  - reflexivity.
  - reflexivity.
  - vm_compute. discriminate.
  - reflexivity.
  - reflexivity.
  - vm_compute. discriminate.
Defined.


End StepMore.

(** ** More on the end of an epoch *)

Module EpochMore.
Import Py Grad Optim Train StepFacts StepClaims EpochFacts Observe
       Examples MoreExamples.

Lemma np_mean_nil : np_mean [] = None.
Proof. reflexivity. Qed.

Section WithCollaborators.
Variable zero_grad : gmap string Unit → gmap string Unit.
Variable optimizer_step : string → Optimizers → Optimizers.

Lemma validate_summary vs acc s :
  trace (validate zero_grad vs acc s).2
  = trace s ++ replicate (length vs) ZeroGrad
  ∧ iters_test (validate zero_grad vs acc s).1
    = (iters_test acc + Z.of_nat (length (succeeded vs)))%Z
  ∧ loss_test (validate zero_grad vs acc s).1
    = (loss_test acc + foldr Rplus 0 (map val_loss_mel (succeeded vs)))%R
  ∧ iters (validate zero_grad vs acc s).2 = iters s
  ∧ optimizers (validate zero_grad vs acc s).2 = optimizers s.
Proof.
  revert acc s. induction vs as [|v vs IH]; intros acc s.
  - unfold succeeded. simpl. rewrite app_nil_r.
    repeat split; try done; [lia|lra].
  - cbn [validate].
    destruct v as [l|];
      (edestruct IH as (Ht & Hn & Hl & Hi & Ho);
       rewrite Ht, Hn, Hl, Hi, Ho; unfold_state).
    + change (succeeded (Some l :: vs)) with (l :: succeeded vs).
      repeat split; try done.
      * simpl. by rewrite <- app_assoc.
      * cbn [length iters_test]. rewrite Nat2Z.inj_succ. lia.
      * cbn [map foldr loss_test]. lra.
    + change (succeeded (None :: vs)) with (succeeded vs).
      repeat split; try done. simpl. by rewrite <- app_assoc.
Qed.

(** X15: the validation pass calls [zero_grad] once per batch and
    nothing else (no backward, no optimizer step, no change of the
    iteration counter or of the optimizer options); it counts the batches
    whose forward went through and sums their mel losses, and a failing
    batch contributes to neither. *)
Theorem validation_only_zero_grads vs acc s :
  trace (validate zero_grad vs acc s).2
  = trace s ++ replicate (length vs) ZeroGrad
  ∧ iters_test (validate zero_grad vs acc s).1
    = (iters_test acc + Z.of_nat (length (succeeded vs)))%Z
  ∧ loss_test (validate zero_grad vs acc s).1
    = (loss_test acc + foldr Rplus 0 (map val_loss_mel (succeeded vs)))%R
  ∧ iters (validate zero_grad vs acc s).2 = iters s
  ∧ optimizers (validate zero_grad vs acc s).2 = optimizers s.
Proof. apply validate_summary. Qed.


(** X17: a checkpoint is written exactly in the epochs whose successor
    is a multiple of [save_freq]: it then records the registry, the
    optimizer options, the iteration counter, the validation mel loss and
    the epoch just finished, followed by the configuration dump when
    [estimate_sigma_data] is set; in every other epoch the state is left
    as it is, and a [save_freq] of 0 stops the run with
    [ZeroDivisionError]. *)
Theorem checkpoint_cadence_and_content cfg epoch acc s :
  (save_freq cfg = 0%Z →
   save_checkpoint cfg epoch acc s = Raise ZeroDivisionError)
  ∧ (save_freq cfg ≠ 0%Z → ((epoch + 1) mod save_freq cfg ≠ 0)%Z →
     save_checkpoint cfg epoch acc s = Ok s)
  ∧ (save_freq cfg ≠ 0%Z → ((epoch + 1) mod save_freq cfg = 0)%Z →
     iters_test acc ≠ 0%Z →
     ∃ s', save_checkpoint cfg epoch acc s = Ok s'
       ∧ trace s'
         = trace s
           ++ TorchSave epoch
                (mkCheckpoint (model s) (optimizers s) (iters s)
                   (loss_test acc / IZR (iters_test acc)) epoch)
           :: (if estimate_sigma_data cfg
               then [DumpConfig (np_mean (running_std s))] else [])
       ∧ iters s' = iters s ∧ model s' = model s).
Proof.
  unfold save_checkpoint, pymod. split; [|split].
  - intros ->. reflexivity.
  - intros H0 Hm. rewrite (proj2 (Z.eqb_neq _ 0) H0). simpl.
    by rewrite (proj2 (Z.eqb_neq _ 0) Hm).
  - intros H0 Hm Hn. rewrite (proj2 (Z.eqb_neq _ 0) H0). simpl.
    rewrite Hm. simpl. rewrite rdiv_ok by done. simpl.
    eexists. split; [reflexivity|].
    destruct (best_loss s) as [best|];
      [destruct (Rlt_dec _ best)|];
      destruct (estimate_sigma_data cfg); unfold_state;
      rewrite <- ?app_assoc; done.
Qed.

(** X18: [best_loss] is the running minimum of the validation losses
    seen at the save points: after a save it is the smaller of its old
    value and the new loss. *)
Theorem best_loss_is_running_minimum cfg epoch acc s s' :
  ((epoch + 1) mod save_freq cfg = 0)%Z →
  save_checkpoint cfg epoch acc s = Ok s' →
  ∃ val best',
    val = (loss_test acc / IZR (iters_test acc))%R
    ∧ best_loss s' = Some best'
    ∧ (best' <= val)%R
    ∧ below_best best' (best_loss s)
    ∧ (best' = val ∨ best_loss s = Some best').
Proof.
  intros Hm. unfold save_checkpoint, pymod.
  destruct (save_freq cfg =? 0)%Z; simpl; [discriminate|].
  rewrite Hm. simpl.
  destruct (rdiv (loss_test acc) (iters_test acc)) as [e|val] eqn:Hd; simpl;
    [discriminate|].
  apply rdiv_inv in Hd as [_ ->].
  set (val := (loss_test acc / IZR (iters_test acc))%R).
  destruct (best_loss s) as [best|] eqn:Hb.
  - destruct (Rlt_dec val best) as [Hlt|Hge];
      destruct (estimate_sigma_data cfg); intros [= <-]; unfold_state;
      rewrite ?Hb.
    + exists val, val. simpl. repeat split; auto; lra.
    + exists val, val. simpl. repeat split; auto; lra.
    + exists val, best. simpl. repeat split; auto; lra.
    + exists val, best. simpl. repeat split; auto; lra.
  - destruct (estimate_sigma_data cfg); intros [= <-]; unfold_state;
      exists val, val; simpl; repeat split; auto; lra.
Qed.

End WithCollaborators.


Lemma best_loss_is_running_minimum_witness :
  ∃ s' best',
    save_checkpoint ex_cfg 19 ex_val_acc ex_state = Ok s'
    ∧ best_loss s' = Some best'
    ∧ (best' <= loss_test ex_val_acc / IZR (iters_test ex_val_acc))%R.
Proof.
  assert (∃ s', save_checkpoint ex_cfg 19 ex_val_acc ex_state = Ok s')
    as [s' Hrun] by (eexists; reflexivity).
  destruct (best_loss_is_running_minimum ex_cfg 19 ex_val_acc ex_state s')
    as (val & best' & -> & Hb & Hle & _); [reflexivity|exact Hrun|].
  exists s', best'. split; [exact Hrun|]. split; [exact Hb|exact Hle].
Defined.

Lemma checkpoint_cadence_and_content_witness :
  ∃ s', save_checkpoint ex_cfg 19 ex_val_acc ex_state = Ok s'
    ∧ iters s' = iters ex_state.
Proof.
  destruct (checkpoint_cadence_and_content ex_cfg 19 ex_val_acc ex_state)
    as (_ & _ & H).
  destruct H as (s' & Hrun & _ & Hi & _); [discriminate|reflexivity|discriminate|].
  exists s'. split; [exact Hrun|exact Hi].
Defined.

Section SigmaDump.
Variable zero_grad : gmap string Unit → gmap string Unit.
Variable optimizer_step : string → Optimizers → Optimizers.






End SigmaDump.


End EpochMore.

(** ** More on the crops *)

Module CropMore.
Import Py Grad Optim Train CropFacts StepFacts StepClaims Examples MoreExamples.
Local Open Scope Z_scope.

(** X20: for a batch whose shortest utterance has at least 2 valid
    frames, every reconstruction crop and every style crop lies inside
    the valid frames of its utterance, and ends at least 2 frames before
    their end: no crop reaches into the padding. *)
Theorem crops_stay_inside_valid_frames (max_len mn : Z) (lens : list Z)
  (g g' : Rng) (offsets : list (Z * Z)) :
  tensor_min lens = Ok mn →
  2 <= mn →
  sample_segments (mel_len_of max_len mn) (mel_len_st_of mn) lens g
  = Ok (offsets, g') →
  Forall2 (fun len o =>
             0 <= o.1 * 2
             ∧ (o.1 + mel_len_of max_len mn) * 2 <= len - 2
             ∧ 0 <= o.2 * 2
             ∧ (o.2 + mel_len_st_of mn) * 2 <= len - 2)
          lens offsets.
Proof.
  intros Hmin H2 Hrun.
  destruct (sample_segments_ok (mel_len_of max_len mn) (mel_len_st_of mn)
              lens g) as (offsets' & g'' & Hrun' & Hrange).
  { intros len Hlen.
    pose proof (tensor_min_le lens mn Hmin len Hlen) as Hle.
    pose proof (half_above_crop mn len H2 Hle).
    pose proof (mel_len_le_st max_len mn). lia. }
  rewrite Hrun in Hrun'. injection Hrun' as <- <-.
  assert (∀ len, len ∈ lens → 2 <= len) as Hlens.
  { intros len Hlen. pose proof (tensor_min_le lens mn Hmin len Hlen). lia. }
  clear Hrun Hmin. induction Hrange as [|len o lens offsets [H1 H3] _ IH];
    constructor.
  - assert (2 <= len) as Hlen by (apply Hlens, elem_of_cons; by left).
    rewrite int_trunc_half in H1, H3.
    rewrite Z.quot_div_nonneg in H1, H3 by lia.
    pose proof (Z.mul_div_le len 2). lia.
  - apply IH. intros l Hl. apply Hlens, elem_of_cons. by right.
Qed.

Lemma crops_stay_inside_valid_frames_witness :
  ∃ offsets g',
    sample_segments (mel_len_of 400 163) (mel_len_st_of 163) [200; 163; 192]
                    (fun n => Z.of_nat n * 7) = Ok (offsets, g')
    ∧ Forall2 (fun len o =>
                 0 <= o.1 * 2
                 ∧ (o.1 + mel_len_of 400 163) * 2 <= len - 2
                 ∧ 0 <= o.2 * 2
                 ∧ (o.2 + mel_len_st_of 163) * 2 <= len - 2)
              [200; 163; 192] offsets.
Proof.
  assert (∃ offsets g',
            sample_segments (mel_len_of 400 163) (mel_len_st_of 163)
              [200; 163; 192] (fun n => Z.of_nat n * 7) = Ok (offsets, g'))
    as (offsets & g' & Hrun) by (eexists _, _; reflexivity).
  exists offsets, g'. split; [exact Hrun|].
  apply (crops_stay_inside_valid_frames 400 163 [200; 163; 192]
           (fun n => Z.of_nat n * 7) g' offsets);
    [reflexivity|lia|exact Hrun].
Defined.

Section WithCollaborators.
Variable zero_grad : gmap string Unit → gmap string Unit.
Variable optimizer_step : string → Optimizers → Optimizers.

(** X21: for a padded batch (every valid length within the frame count
    of [mels], the shortest at least 2) and a non-negative [max_len], the
    crops are [2 * min(floor(mn / 2) - 1, max_len // 2)] frames wide, and
    the batch is dropped exactly when its shortest utterance has at most
    81 valid frames or [max_len] is at most 79: then the step returns the
    state unchanged; otherwise it goes on to the updates, and a step that
    returns has issued the calls of the main updates and counted itself. *)
Theorem batch_dropped_iff_short cfg b g mn :
  tensor_min (mel_input_length b) = Ok mn →
  2 <= mn →
  0 <= max_len cfg →
  (∀ len, len ∈ mel_input_length b → len <= mels_frames b) →
  ∃ mel_len offsets width,
    crop_segments cfg b g = Ok (mel_len, offsets, width)
    ∧ mel_len = Z.min (mn `div` 2 - 1) (max_len cfg `div` 2)
    ∧ width = 2 * mel_len
    ∧ (width < 80 ↔ mn <= 81 ∨ max_len cfg <= 79)
    ∧ (mn <= 81 ∨ max_len cfg <= 79 →
       ∀ th epoch i ls ld s,
         finish_step zero_grad optimizer_step cfg th epoch i b ls ld g s = Ok s)
    ∧ (82 <= mn → 80 <= max_len cfg →
       ∀ th epoch i ls ld s,
         finish_step zero_grad optimizer_step cfg th epoch i b ls ld g s
         = ('(d, l, s2) ← slm_stage zero_grad optimizer_step cfg th epoch i b
              (main_updates zero_grad optimizer_step cfg th epoch b ls ld s);
            log_step cfg i b ls ld d l (set_iters (iters s2 + 1) s2))
         ∧ ∀ s', finish_step zero_grad optimizer_step cfg th epoch i b
                             ls ld g s = Ok s' →
                 iters s' = iters s + 1
                 ∧ ∃ evs, trace s'
                          = trace s ++ main_events cfg th epoch b ls ld ++ evs).
Proof.
  intros Hmin H2 Hmax Hfr.
  destruct (crop_segments_full_width cfg b g mn Hmin H2 Hmax Hfr)
    as (offsets & Hcrop).
  assert (mel_len_of (max_len cfg) mn
          = Z.min (mn `div` 2 - 1) (max_len cfg `div` 2)) as Hml.
  { unfold mel_len_of. fold (mel_len_st_of mn). by rewrite mel_len_st_floor. }
  assert (2 * mel_len_of (max_len cfg) mn < 80
          ↔ mn <= 81 ∨ max_len cfg <= 79) as Hiff.
  { rewrite Hml.
    pose proof (Z.div_mod mn 2 ltac:(lia)).
    pose proof (Z.mod_pos_bound mn 2 ltac:(lia)).
    pose proof (Z.div_mod (max_len cfg) 2 ltac:(lia)).
    pose proof (Z.mod_pos_bound (max_len cfg) 2 ltac:(lia)).
    lia. }
  exists (mel_len_of (max_len cfg) mn), offsets,
         (2 * mel_len_of (max_len cfg) mn).
  split; [exact Hcrop|]. split; [exact Hml|]. split; [done|].
  split; [exact Hiff|]. split.
  - intros Hshort th epoch i ls ld s. unfold finish_step. rewrite Hcrop.
    cbn [mbind result_bind]. apply Hiff in Hshort.
    by rewrite (proj2 (Z.ltb_lt _ 80) Hshort).
  - intros Hmn Hlen th epoch i ls ld s.
    assert (finish_step zero_grad optimizer_step cfg th epoch i b ls ld g s
            = ('(d, l, s2) ← slm_stage zero_grad optimizer_step cfg th epoch i b
                 (main_updates zero_grad optimizer_step cfg th epoch b ls ld s);
               log_step cfg i b ls ld d l (set_iters (iters s2 + 1) s2)))
      as Hgo.
    { unfold finish_step. rewrite Hcrop. cbn [mbind result_bind].
      assert (¬ 2 * mel_len_of (max_len cfg) mn < 80) as Hwide
        by (rewrite Hiff; lia).
      by rewrite (proj2 (Z.ltb_ge _ 80)) by lia. }
    split; [exact Hgo|].
    intros s'. rewrite Hgo.
    destruct (slm_stage _ _ _ _ _ _ _ _) as [e|[[d l] s2]] eqn:Hslm;
      cbn [mbind result_bind]; [discriminate|].
    intros Hlog.
    apply log_step_frame in Hlog as (_ & _ & Hi & _ & _ & evs & Ht & _).
    pose proof (slm_stage_trace _ _ _ _ _ _ _ _ _ _ _ Hslm) as Hst.
    pose proof (slm_stage_frame _ _ _ _ _ _ _ _ _ _ _ Hslm) as (Hi2 & _).
    pose proof (main_updates_frame zero_grad optimizer_step cfg th epoch b
                  ls ld s) as (Hi1 & _).
    cbn [iters trace set_iters] in Hi, Ht. split.
    + rewrite Hi, Hi2. cbn zeta in Hi1. rewrite Hi1. reflexivity.
    + exists (slm_events cfg th epoch i b ++ evs).
      rewrite Ht, Hst, main_updates_trace. by rewrite <- !app_assoc.
Qed.

End WithCollaborators.

Lemma batch_dropped_iff_short_witness :
  (∃ mel_len offsets width,
     crop_segments ex_cfg ex_short_batch (np_random ex_short_batch)
     = Ok (mel_len, offsets, width)
     ∧ width = 2 * mel_len
     ∧ width < 80)
  ∧ ∃ s', finish_step ex_zero_grad ex_optimizer_step ex_cfg ex_th 3 0 ex_batch
                      0 0 (np_random ex_batch) ex_state = Ok s'
          ∧ iters s' = iters ex_state + 1.
Proof.
  split.
  - destruct (batch_dropped_iff_short ex_zero_grad ex_optimizer_step ex_cfg
                ex_short_batch (np_random ex_short_batch) 81)
      as (mel_len & offsets & width & Hrun & _ & Hw & Hiff & _).
    + reflexivity.
    + lia.
    + vm_compute. discriminate.
    + intros len Hlen. simpl in Hlen.
      repeat (apply elem_of_cons in Hlen as [->|Hlen];
              [vm_compute; discriminate|]).
      by apply elem_of_nil in Hlen.
    + exists mel_len, offsets, width. split; [exact Hrun|]. split; [exact Hw|].
      apply Hiff. left. lia.
  - assert (∃ s', finish_step ex_zero_grad ex_optimizer_step ex_cfg ex_th 3 0
                    ex_batch 0 0 (np_random ex_batch) ex_state = Ok s')
      as [s' Hrun] by (eexists; reflexivity).
    exists s'. split; [exact Hrun|].
    destruct (batch_dropped_iff_short ex_zero_grad ex_optimizer_step ex_cfg
                ex_batch (np_random ex_batch) 163)
      as (_ & _ & _ & _ & _ & _ & _ & _ & Hkept).
    + reflexivity.
    + lia.
    + vm_compute. discriminate.
    + intros len Hlen. simpl in Hlen.
      repeat (apply elem_of_cons in Hlen as [->|Hlen];
              [vm_compute; discriminate|]).
      by apply elem_of_nil in Hlen.
    + destruct (Hkept ltac:(lia) ltac:(vm_compute; discriminate)
                  ex_th 3 0 0%R 0%R ex_state) as [_ Hall].
      by apply Hall.
Defined.

End CropMore.

(** ** The duration targets *)

Module DurationFacts.
Import Py Duration.

Lemma foldl_insert_prefix (v : Z) (row : list Z) (n : nat) :
  (n <= length row)%nat →
  foldl (fun acc j => <[j := v]> acc) row (seq 0 n)
  = replicate n v ++ drop n row.
Proof.
  induction n as [|n IH]; intros Hn; [done|].
  rewrite (replicate_S_end n v), <- app_assoc.
  rewrite seq_S, foldl_app, IH by lia.
  destruct (lookup_lt_is_Some_2 row n ltac:(lia)) as [x Hx].
  rewrite (drop_S row x n Hx). cbn [foldl Nat.add].
  rewrite insert_app_r_alt by (rewrite length_replicate; lia).
  rewrite length_replicate, Nat.sub_diag. reflexivity.
Qed.

Lemma tensor_sum_app (l1 l2 : list Z) :
  tensor_sum (l1 ++ l2) = (tensor_sum l1 + tensor_sum l2)%Z.
Proof.
  unfold tensor_sum. induction l1 as [|x l1 IH]; simpl; [done|].
  rewrite IH. lia.
Qed.

Lemma tensor_sum_replicate (n : nat) (v : Z) :
  tensor_sum (replicate n v) = (Z.of_nat n * v)%Z.
Proof.
  unfold tensor_sum. induction n as [|n IH]; [done|].
  cbn [replicate foldr]. rewrite IH. lia.
Qed.

(** X22: the alignment-existence target has one row per phoneme, and the
    row of a phoneme of (non-negative) duration [d] is [d] ones followed
    by zeros, cut off at the number of columns: its sum is
    [min(d, cols)], so a duration beyond the number of columns saturates
    to a row of ones. *)
Theorem s2s_trg_rows (cols : nat) (text_input : list Z) :
  length (s2s_trg cols text_input) = length text_input
  ∧ ∀ (p : nat) (d : Z), text_input !! p = Some d → (0 <= d)%Z →
      let n := Z.to_nat (Z.min d (Z.of_nat cols)) in
      s2s_trg cols text_input !! p
      = Some (replicate n 1%Z ++ replicate (cols - n) 0%Z)
      ∧ tensor_sum (replicate n 1%Z ++ replicate (cols - n) 0%Z)
        = Z.min d (Z.of_nat cols).
Proof.
  split; [unfold s2s_trg; apply length_map|].
  intros p d Hp Hd n. split.
  - unfold s2s_trg. rewrite list_lookup_fmap, Hp. simpl. f_equal.
    unfold assign_prefix, clamp_index. rewrite length_replicate.
    rewrite (proj2 (Z.ltb_ge d 0)) by lia. fold n.
    rewrite foldl_insert_prefix by (rewrite length_replicate; lia).
    by rewrite drop_replicate.
  - rewrite tensor_sum_app, !tensor_sum_replicate. lia.
Qed.

Lemma s2s_trg_rows_witness :
  s2s_trg 4 [2; 0; 9]%Z !! 2%nat
  = Some (replicate 4 1%Z ++ replicate 0 0%Z).
Proof.
  destruct (s2s_trg_rows 4 [2; 0; 9]%Z) as [_ H].
  apply (H 2%nat 9%Z); [reflexivity|lia].
Defined.

End DurationFacts.

(** ** The iteration counter over a whole run *)

Module RunMore.
Import Py Grad Optim Train StepFacts StepClaims EpochFacts Observe
       StepMore EpochMore Examples MoreExamples.

Section WithCollaborators.
Variable zero_grad : gmap string Unit → gmap string Unit.
Variable optimizer_step : string → Optimizers → Optimizers.
Variable load_checkpoint :
  gmap string Unit → option Optimizers → string → bool → list string →
  gmap string Unit * option Optimizers * Z * Z.
Variable build_optimizer :
  gmap string Unit → gmap string SchedulerParams → Q → Optimizers.

Lemma count_steps_no_step (key : string) (evs : list Event) :
  forallb (fun e => negb (is_opt_step e)) evs = true →
  count_steps key evs = 0%nat.
Proof.
  intros H. apply count_steps_zero. intros e He.
  rewrite forallb_forall in H. apply list_elem_of_In, H in He.
  by destruct e.
Qed.

Lemma save_checkpoint_steps cfg epoch acc s s' key :
  save_checkpoint cfg epoch acc s = Ok s' →
  count_steps key (trace s') = count_steps key (trace s)
  ∧ iters s' = iters s.
Proof.
  unfold save_checkpoint. destruct (pymod _ _) as [e|r]; simpl; [discriminate|].
  destruct (r =? 0)%Z; [|by intros [= <-]].
  destruct (rdiv _ _) as [e|val]; simpl; [discriminate|].
  destruct (best_loss s) as [best|]; [destruct (Rlt_dec val best)|];
    destruct (estimate_sigma_data cfg); intros [= <-];
    unfold_state; rewrite ?count_steps_app;
    (split; [|done]);
    repeat (rewrite (count_steps_no_step key [_]) by reflexivity); lia.
Qed.

Lemma run_epoch_counter cfg th data epoch s s' :
  run_epoch zero_grad optimizer_step cfg th data epoch s = Ok s' →
  ∃ n : nat,
    iters s' = (iters s + Z.of_nat n)%Z
    ∧ count_steps "msd" (trace s') = (count_steps "msd" (trace s) + n)%nat.
Proof.
  intros H. apply run_epoch_inv in H
    as (s_tr & acc & s_val & s_log & Ht & Hv & Hl & Hs).
  apply train_batches_counter in Ht as (n & _ & Hi & Hmsd & _).
  apply (save_checkpoint_steps _ _ _ _ _ "msd"%string) in Hs as [Hc Hi'].
  rewrite (log_validation_ok _ _ _ (log_validation_inv _ _ _ _ Hl)) in Hl.
  injection Hl as <-.
  destruct (validate_summary zero_grad (val_data data epoch)
              (mkValAcc 0 0 0 0) s_tr) as (Htr & _ & _ & Hiv & _).
  rewrite Hv in Htr, Hiv. simpl in Htr, Hiv.
  exists n. rewrite Hi', Hc. unfold_state.
  rewrite Hiv, Hi, Htr, !count_steps_app, Hmsd. split; [done|].
  assert (count_steps "msd" (replicate (length (val_data data epoch)) ZeroGrad)
          = 0%nat) as ->.
  { apply count_steps_zero. intros e He.
    apply elem_of_replicate in He as [-> _]. reflexivity. }
  rewrite (count_steps_no_step "msd" [AddScalar _ _ _; _; _]) by reflexivity.
  lia.
Qed.

Lemma run_epochs_counter cfg th data n epoch s s' :
  run_epochs zero_grad optimizer_step cfg th data n epoch s = Ok s' →
  ∃ k : nat,
    iters s' = (iters s + Z.of_nat k)%Z
    ∧ count_steps "msd" (trace s') = (count_steps "msd" (trace s) + k)%nat.
Proof.
  revert epoch s. induction n as [|n IH]; intros epoch s; simpl.
  - intros [= <-]. exists 0%nat. split; lia.
  - destruct (run_epoch zero_grad optimizer_step cfg th data epoch s) as [e|s1] eqn:E;
      simpl; [discriminate|].
    intros H. apply IH in H as (k2 & Hi2 & Hc2).
    apply run_epoch_counter in E as (k1 & Hi1 & Hc1).
    exists (k1 + k2)%nat. rewrite Hi2, Hc2, Hi1, Hc1. split; lia.
Qed.

(** X23: when [main] returns, the iteration counter equals the number
    of discriminator updates the run has made: it starts at 0 on every
    path, grows by one with each batch that is not dropped, and nothing
    else (validation, logging, checkpointing) moves either. *)
Theorem iters_counts_updates_of_the_run cfg model data s_end :
  main zero_grad optimizer_step load_checkpoint build_optimizer cfg model data
  = Ok s_end →
  iters s_end = Z.of_nat (count_steps "msd" (trace s_end))
  ∧ (0 <= iters s_end)%Z.
Proof.
  unfold main.
  destruct (startup load_checkpoint build_optimizer cfg model)
    as [e|su] eqn:Hsu; simpl; [discriminate|].
  intros Hloop. unfold training_loop in Hloop.
  apply run_epochs_counter in Hloop as (k & Hi & Hc).
  destruct (StartupFacts.startup_inv _ _ _ _ _ Hsu) as (H0 & _).
  unfold initial_state in Hi, Hc. simpl in Hi, Hc.
  rewrite H0 in Hi. rewrite Hi, Hc.
  unfold count_steps. simpl. split; lia.
Qed.

End WithCollaborators.

Lemma iters_counts_updates_of_the_run_witness :
  ∃ s_end,
    main ex_zero_grad ex_optimizer_step ex_first_stage_at ex_build_optimizer
         ex_cfg_short ex_registry ex_data_wide = Ok s_end
    ∧ iters s_end = 2%Z
    ∧ iters s_end = Z.of_nat (count_steps "msd" (trace s_end)).
Proof.
  assert (∃ s_end, main ex_zero_grad ex_optimizer_step ex_first_stage_at
                        ex_build_optimizer ex_cfg_short ex_registry
                        ex_data_wide = Ok s_end
                   ∧ iters s_end = 2%Z)
    as (s_end & Hrun & Hit) by (eexists; split; reflexivity).
  exists s_end. split; [exact Hrun|]. split; [exact Hit|].
  apply (iters_counts_updates_of_the_run ex_zero_grad ex_optimizer_step
           ex_first_stage_at ex_build_optimizer ex_cfg_short ex_registry
           ex_data_wide s_end Hrun).
Defined.

End RunMore.
